(** * dotenv: typed environment settings with registered defaults

    A shallow embedding of the [dotenv] Go package (defaults.go, dotenv.go)
    and the properties of its registry, loader, accessors and help printer.

    Go strings are byte sequences: they are modelled by [string], whose
    characters are the 256 byte values.  Go [int] is taken to be 64 bits
    wide (amd64, arm64).  Maps are [gmap]s. *)

From Stdlib Require Import ZArith Lia List Ascii String DecimalString DecimalPos.
From stdpp Require Import base option list strings gmap fin_maps sorting.

Local Open Scope string_scope.
Local Open Scope Z_scope.

(** ** Bytes and slices *)

Definition byte_of (n : nat) : ascii := ascii_of_nat n.
Definition code (c : ascii) : Z := Z.of_nat (nat_of_ascii c).

Fixpoint bytes (l : list nat) : string :=
  match l with
  | [] => EmptyString
  | n :: l' => String (byte_of n) (bytes l')
  end.

(** [len s] is Go's [len(s)]. *)
Definition len (s : string) : Z := Z.of_nat (String.length s).

Fixpoint drop_bytes (n : nat) (s : string) : string :=
  match n, s with
  | O, _ => s
  | S n', String _ s' => drop_bytes n' s'
  | S _, EmptyString => EmptyString
  end.

Fixpoint take_bytes (n : nat) (s : string) : string :=
  match n, s with
  | O, _ => EmptyString
  | S n', String c s' => String c (take_bytes n' s')
  | S _, EmptyString => EmptyString
  end.

(** [slice s lo hi] is [s[lo:hi]]; Go panics unless [0 <= lo <= hi <= len s],
    which is [None] here. *)
Definition slice (s : string) (lo hi : Z) : option string :=
  if (0 <=? lo) && (lo <=? hi) && (hi <=? len s)
  then Some (take_bytes (Z.to_nat (hi - lo)) (drop_bytes (Z.to_nat lo) s))
  else None.

Fixpoint rev_string (acc s : string) : string :=
  match s with
  | EmptyString => acc
  | String c s' => rev_string (String c acc) s'
  end.

Definition reverse (s : string) : string := rev_string EmptyString s.

Fixpoint mem_byte (c : ascii) (s : string) : bool :=
  match s with
  | EmptyString => false
  | String d s' => Ascii.eqb c d || mem_byte c s'
  end.

(** ** Package strings *)

Module strings.

Fixpoint HasPrefix (s prefix : string) {struct prefix} : bool :=
  match prefix, s with
  | EmptyString, _ => true
  | String _ _, EmptyString => false
  | String c p, String d s' => Ascii.eqb c d && HasPrefix s' p
  end.

(** [Index s sep]: offset of the first occurrence of the byte [sep] in [s],
    or [-1].  Every separator this package passes ("#", "=", ",") is a
    one-byte literal, so the separator is a byte here. *)
Fixpoint index_from (i : Z) (s : string) (sep : ascii) : Z :=
  match s with
  | EmptyString => -1
  | String c s' => if Ascii.eqb c sep then i else index_from (i + 1) s' sep
  end.

Definition Index (s : string) (sep : ascii) : Z := index_from 0 s sep.

(** [Count s sep]: number of occurrences of the byte [sep]. *)
Fixpoint Count (s : string) (sep : ascii) : Z :=
  match s with
  | EmptyString => 0
  | String c s' => (if Ascii.eqb c sep then 1 else 0) + Count s' sep
  end.

(** The loop of [genSplit]: at most [n] cuts, then the rest of the string
    as the last piece. *)
Fixpoint genSplit_loop (n : nat) (s : string) (sep : ascii) : list string :=
  match n with
  | O => [s]
  | S n' =>
      let m := Index s sep in
      if m <? 0 then [s]
      else take_bytes (Z.to_nat m) s
             :: genSplit_loop n' (drop_bytes (Z.to_nat (m + 1)) s) sep
  end.

(** [genSplit s sep 0 n]; the result [nil] for [n = 0] is the empty list. *)
Definition genSplit (s : string) (sep : ascii) (n : Z) : list string :=
  if n =? 0 then []
  else
    let n1 := if n <? 0 then Count s sep + 1 else n in
    let n2 := if len s + 1 <? n1 then len s + 1 else n1 in
    genSplit_loop (Z.to_nat (n2 - 1)) s sep.

Definition SplitN (s : string) (sep : ascii) (n : Z) : list string :=
  genSplit s sep n.

Definition Split (s : string) (sep : ascii) : list string :=
  genSplit s sep (-1).

Fixpoint Join (elems : list string) (sep : string) : string :=
  match elems with
  | [] => ""
  | [e] => e
  | e :: rest => e ++ sep ++ Join rest sep
  end.

(** [Repeat s count] panics on a negative count. *)
Fixpoint repeat_nat (s : string) (n : nat) : string :=
  match n with
  | O => ""
  | S n' => s ++ repeat_nat s n'
  end.

Definition Repeat (s : string) (count : Z) : option string :=
  if count <? 0 then None else Some (repeat_nat s (Z.to_nat count)).

(** White space as [unicode.IsSpace] has it, each rune by its UTF-8
    encoding: U+0009..U+000D, U+0020, U+0085, U+00A0, U+1680,
    U+2000..U+200A, U+2028, U+2029, U+202F, U+205F, U+3000. *)
Definition spaceEncodings : list string :=
  map bytes
    [ [9]; [10]; [11]; [12]; [13]; [32];
      [194; 133]; [194; 160]; [225; 154; 128];
      [226; 128; 128]; [226; 128; 129]; [226; 128; 130]; [226; 128; 131];
      [226; 128; 132]; [226; 128; 133]; [226; 128; 134]; [226; 128; 135];
      [226; 128; 136]; [226; 128; 137]; [226; 128; 138];
      [226; 128; 168]; [226; 128; 169]; [226; 128; 175];
      [226; 129; 159]; [227; 128; 128] ]%nat.

(** Width in bytes of the white-space rune [s] starts with, [0] if it
    starts with none. *)
Fixpoint spaceWidth (encs : list string) (s : string) : nat :=
  match encs with
  | [] => O
  | e :: encs' => if HasPrefix s e then String.length e else spaceWidth encs' s
  end.

Fixpoint trimLeft (fuel : nat) (encs : list string) (s : string) : string :=
  match fuel with
  | O => s
  | S fuel' =>
      match spaceWidth encs s with
      | O => s
      | w => trimLeft fuel' encs (drop_bytes w s)
      end
  end.

Definition TrimLeftSpace (s : string) : string :=
  trimLeft (String.length s) spaceEncodings s.

(** Trailing white space is found by decoding runes backwards, which
    amounts to stripping reversed encodings from the reversed string. *)
Definition TrimRightSpace (s : string) : string :=
  reverse (trimLeft (String.length s) (map reverse spaceEncodings) (reverse s)).

Definition TrimSpace (s : string) : string :=
  TrimRightSpace (TrimLeftSpace s).

(** [EqualFold s t] for a [t] of ASCII letters none of which is k or s
    (the only ASCII letters with a non-ASCII simple fold): a byte of [s]
    above 0x7F then never matches, so the comparison is byte by byte. *)
Definition foldEq (sr tr : ascii) : bool :=
  let a := code sr in
  let b := code tr in
  if (128 <=? a) || (128 <=? b) then false
  else if a =? b then true
  else
    let lo := Z.min a b in
    let hi := Z.max a b in
    (65 <=? lo) && (lo <=? 90) && (hi =? lo + 32).

Fixpoint EqualFold (s t : string) : bool :=
  match s, t with
  | EmptyString, EmptyString => true
  | String c s', String d t' => foldEq c d && EqualFold s' t'
  | _, _ => false
  end.

End strings.

(** ** Package strconv *)

Module strconv.

Inductive NumError := ErrSyntax | ErrRange.

(** Go [int] has [intSize] bits. *)
Definition intSize : Z := 64.

Definition maxUint64 : Z := 2 ^ 64 - 1.

(** [lower c] is [c | ('x' - 'X')]. *)
Definition lower (c : Z) : Z := Z.lor c 32.

(** The digit loop of [ParseUint] for a base in 2..36 (no underscores:
    they are accepted for base 0 only).  [n] is the [uint64] accumulator;
    the result carries the value returned next to the error. *)
Fixpoint parseUint_loop (s : string) (base cutoff maxVal n : Z)
  : Z * option NumError :=
  match s with
  | EmptyString => (n, None)
  | String ch s' =>
      let c := code ch in
      let d :=
        if (48 <=? c) && (c <=? 57) then Some (c - 48)
        else if (97 <=? lower c) && (lower c <=? 122) then Some (lower c - 97 + 10)
        else None in
      match d with
      | None => (0, Some ErrSyntax)
      | Some d =>
          if base <=? d then (0, Some ErrSyntax)
          else if cutoff <=? n then (maxVal, Some ErrRange)
          else
            let n' := (n * base) mod 2 ^ 64 in
            let n1 := (n' + d) mod 2 ^ 64 in
            if (n1 <? n') || (maxVal <? n1) then (maxVal, Some ErrRange)
            else parseUint_loop s' base cutoff maxVal n1
      end
  end.

(** [ParseUint s base bitSize] for [2 <= base <= 36] and
    [0 <= bitSize <= 64]. *)
Definition ParseUint (s : string) (base bitSize : Z) : Z * option NumError :=
  match s with
  | EmptyString => (0, Some ErrSyntax)
  | _ =>
      let bitSize := if bitSize =? 0 then intSize else bitSize in
      let cutoff := maxUint64 / base + 1 in
      let maxVal := 2 ^ bitSize - 1 in
      parseUint_loop s base cutoff maxVal 0
  end.

Definition ParseInt (s : string) (base bitSize : Z) : Z * option NumError :=
  match s with
  | EmptyString => (0, Some ErrSyntax)
  | String c0 rest =>
      let neg := Ascii.eqb c0 "-" in
      let s1 := if Ascii.eqb c0 "+" || neg then rest else s in
      let '(un, err) := ParseUint s1 base bitSize in
      match err with
      | Some ErrSyntax => (0, err)
      | _ =>
          let bitSize := if bitSize =? 0 then intSize else bitSize in
          let cutoff := 2 ^ (bitSize - 1) in
          if negb neg && (cutoff <=? un) then (cutoff - 1, Some ErrRange)
          else if neg && (cutoff <? un) then (- cutoff, Some ErrRange)
          else (if neg then - un else un, None)
      end
  end.

(** The fast path of [Atoi]: a sign and digits that cannot overflow. *)
Fixpoint atoi_digits (s : string) (n : Z) : Z * option NumError :=
  match s with
  | EmptyString => (n, None)
  | String ch s' =>
      let d := (code ch - 48) mod 256 in
      if 9 <? d then (0, Some ErrSyntax) else atoi_digits s' (n * 10 + d)
  end.

Definition Atoi (s : string) : Z * option NumError :=
  let sLen := len s in
  if ((intSize =? 32) && (0 <? sLen) && (sLen <? 10))
     || ((intSize =? 64) && (0 <? sLen) && (sLen <? 19))
  then
    match s with
    | EmptyString => (0, Some ErrSyntax)
    | String c0 rest =>
        let signed := Ascii.eqb c0 "-" || Ascii.eqb c0 "+" in
        let s1 := if signed then rest else s in
        if signed && (len s1 <? 1) then (0, Some ErrSyntax)
        else
          let '(n, err) := atoi_digits s1 0 in
          match err with
          | Some _ => (0, err)
          | None => (if Ascii.eqb c0 "-" then - n else n, None)
          end
    end
  else ParseInt s 10 0.

(** [Itoa i], also what the verb [%d] prints. *)
Definition Itoa (i : Z) : string := NilZero.string_of_int (Z.to_int i).

End strconv.

(** ** Package path *)

Module path.

(** One element of the path against the elements kept so far (the last
    kept one first): empty and "." elements vanish, ".." removes the last
    kept element, is kept itself when there is none to remove in a
    relative path, and vanishes at the root. *)
Definition clean_elem (rooted : bool) (out : list string) (e : string)
  : list string :=
  if String.eqb e "" || String.eqb e "." then out
  else if String.eqb e ".." then
    match out with
    | [] => if rooted then [] else [".."]
    | top :: out' => if String.eqb top ".." then ".." :: out else out'
    end
  else e :: out.

Definition Clean (p : string) : string :=
  match p with
  | EmptyString => "."
  | String c _ =>
      let rooted := Ascii.eqb c "/" in
      let out := fold_left (clean_elem rooted) (strings.Split p "/") [] in
      let r := (if rooted then "/" else "") ++ strings.Join (rev out) "/" in
      if String.eqb r "" then "." else r
  end.

(** [Join(a, b)] of two elements. *)
Definition Join (a b : string) : string :=
  if (len a + len b =? 0) then ""
  else if String.eqb a "" then Clean b
  else if String.eqb b "" then Clean a
  else Clean (a ++ "/" ++ b).

End path.

(** ** Package bufio: a Scanner with the default split function *)

Module bufio.

Definition MaxScanTokenSize : Z := 64 * 1024.

(** The text between line feeds; what follows the last line feed is a
    line only when it is not empty.  [cur] holds the bytes of the current
    line, last byte first. *)
Fixpoint rawLines (cur : string) (data : string) : list string :=
  match data with
  | EmptyString =>
      match cur with EmptyString => [] | _ => [reverse cur] end
  | String c data' =>
      if Ascii.eqb c "010" then reverse cur :: rawLines "" data'
      else rawLines (String c cur) data'
  end.

Definition dropCR (tok : string) : string :=
  match reverse tok with
  | String c r => if Ascii.eqb c "013" then reverse r else tok
  | EmptyString => tok
  end.

(** [Scan] stops for good (with [ErrTooLong], which the caller below never
    reads) at a line that does not fit the buffer. *)
Fixpoint fitting (ls : list string) : list string :=
  match ls with
  | [] => []
  | l :: ls' => if MaxScanTokenSize <=? len l then [] else l :: fitting ls'
  end.

(** The tokens [s.Text()] takes in turn while [s.Scan()] holds. *)
Definition ScanLines (data : string) : list string :=
  map dropCR (fitting (rawLines "" data)).

End bufio.

(** ** Errors *)

Inductive error :=
| ErrBadUserFile
| ErrBadLocalFile
| Errorf (msg : string)
| PathError (op name errno : string)
| SyscallError (call : string)
| ErrHomeUndefined.

(** [err.Error()] *)
Definition Error (e : error) : string :=
  match e with
  | ErrBadUserFile => "unable to parse $HOME/.env file"
  | ErrBadLocalFile => "unable to parse .env file"
  | Errorf msg => msg
  | PathError op name errno => op ++ " " ++ name ++ ": " ++ errno
  | SyscallError call => call ++ ": invalid argument"
  | ErrHomeUndefined => "$HOME is not defined"
  end.

(** ** Package os: the process environment and the files (Unix) *)

Module os.

Inductive node :=
| Dir
| File (readable : bool) (content : string).

(** The host: environment variables, the file system by the names the
    package passes, and the names given to [Open] so far. *)
Record World := mkWorld {
  environ : gmap string string;
  files : gmap string node;
  opened : list string
}.

Definition with_environ (w : World) (e : gmap string string) : World :=
  mkWorld e (files w) (opened w).

Definition LookupEnv (w : World) (key : string) : option string :=
  if String.eqb key "" then None else environ w !! key.

Definition Getenv (w : World) (key : string) : string :=
  default "" (LookupEnv w key).

(** [Setenv] refuses an empty key, a key with "=" or a NUL byte, and a
    value with a NUL byte. *)
Definition Setenv (key value : string) (w : World) : option error * World :=
  if String.eqb key "" || mem_byte "=" key || mem_byte "000" key
     || mem_byte "000" value
  then (Some (SyscallError "setenv"), w)
  else (None, with_environ w (<[key := value]> (environ w))).

Definition UserHomeDir (w : World) : string + error :=
  let v := Getenv w "HOME" in
  if String.eqb v "" then inr ErrHomeUndefined else inl v.

(** [Stat]: [Some isDir] when the name exists. *)
Definition Stat (w : World) (name : string) : option bool :=
  match files w !! name with
  | Some Dir => Some true
  | Some (File _ _) => Some false
  | None => None
  end.

(** [Open] logs the name; it yields the bytes a reader of the file gets
    (none from a directory, whose reads fail). *)
Definition Open (name : string) (w : World) : (string + error) * World :=
  let w' := mkWorld (environ w) (files w) (opened w ++ [name])%list in
  match files w !! name with
  | Some (File true content) => (inl content, w')
  | Some (File false _) => (inr (PathError "open" name "permission denied"), w')
  | Some Dir => (inl "", w')
  | None => (inr (PathError "open" name "no such file or directory"), w')
  end.

End os.

(** ** Package time: printing a Duration *)

Module time.

Definition Microsecond : Z := 1000.
Definition Millisecond : Z := 1000 * Microsecond.
Definition Second : Z := 1000 * Millisecond.

Definition digit (d : Z) : ascii := ascii_of_nat (Z.to_nat (48 + d)).

(** [fmtFrac]: the fraction of [v / 10^prec] without trailing zeros (and
    without the point when it is zero), and [v / 10^prec].  [acc] is the
    text written so far, which grows at its front. *)
Fixpoint fmtFrac (prec : nat) (v : Z) (print : bool) (acc : string)
  : string * Z :=
  match prec with
  | O => (if print then String "." acc else acc, v)
  | S prec' =>
      let d := v mod 10 in
      let print' := print || negb (d =? 0) in
      fmtFrac prec' (v / 10) print' (if print' then String (digit d) acc else acc)
  end.

(** [d.String()] for a Duration of [d] nanoseconds. *)
Definition String_ (d : Z) : string :=
  let u := Z.abs d in
  let body :=
    if u <? Second then
      if u =? 0 then "0s"
      else
        let '(prec, unit) :=
          if u <? Microsecond then (0%nat, "ns")
          else if u <? Millisecond then (3%nat, bytes [194; 181]%nat ++ "s")
          else (6%nat, "ms") in
        let '(frac, u') := fmtFrac prec u false unit in
        strconv.Itoa u' ++ frac
    else
      let '(frac, u1) := fmtFrac 9 u false "s" in
      let secs := strconv.Itoa (u1 mod 60) ++ frac in
      let u2 := u1 / 60 in
      if 0 <? u2 then
        let mins := strconv.Itoa (u2 mod 60) ++ "m" ++ secs in
        let u3 := u2 / 60 in
        if 0 <? u3 then strconv.Itoa u3 ++ "h" ++ mins else mins
      else secs in
  if d <? 0 then "-" ++ body else body.

End time.

(** ** defaults.go *)

(** A Go call either returns or panics. *)
Inductive outcome (A : Type) : Type :=
| Returns (a : A)
| Panics (msg : string).
Arguments Returns {A} a.
Arguments Panics {A} msg.

(** The dynamic values an [interface{}] default can hold.  A [float64] is
    its IEEE 754 bit pattern, a [time.Duration] its nanoseconds; a value of
    any other dynamic type is known by the name of that type and by what the
    verb [%v] prints for it, all this package can observe of it. *)
Inductive value :=
| VString (s : string)
| VStringSlice (l : list string)
| VInt (i : Z)
| VInt64 (i : Z)
| VFloat64 (bits : Z)
| VBool (b : bool)
| VDuration (d : Z)
| VNil
| VOther (typ : string) (printed : string).

Definition StringType : Z := 0.
Definition StringSliceType : Z := 1.
Definition IntType : Z := 2.
Definition Float64Type : Z := 3.
Definition BoolType : Z := 4.
Definition DurationType : Z := 5.

Record descriptor := mkDescriptor {
  Var : string;
  DataType : Z;
  DefaultValue : value;
  Description : string
}.

(** The zero value of [descriptor], what a missing map entry reads as. *)
Definition zeroDescriptor : descriptor := mkDescriptor "" 0 VNil "".

(** [Register] against the registry [registered]: the outcome and the
    registry after the call. *)
Definition Register (key : string) (defaultValue : value) (description : string)
    (registered : gmap string descriptor)
  : outcome unit * gmap string descriptor :=
  let dataType :=
    match defaultValue with
    | VString _ => Returns StringType
    | VStringSlice _ => Returns StringSliceType
    | VInt _ => Returns IntType
    | VFloat64 _ => Returns Float64Type
    | VBool _ => Returns BoolType
    | VDuration _ => Returns DurationType
    | _ => Panics "invalid type"
    end in
  match dataType with
  | Panics msg => (Panics msg, registered)
  | Returns dataType =>
      (Returns tt,
       <[key := mkDescriptor key dataType defaultValue description]> registered)
  end.

Definition Default (key : string) (registered : gmap string descriptor)
  : descriptor * bool :=
  match registered !! key with
  | Some val => (val, true)
  | None => (zeroDescriptor, false)
  end.

Definition typeNames : gmap Z string :=
  list_to_map
    [ (StringType, "string"); (StringSliceType, "[]string");
      (IntType, "integer"); (Float64Type, "float");
      (BoolType, "boolean"); (DurationType, "duration") ].

Definition pad (val : string) (width : Z) : outcome string :=
  if width <? len val then
    match slice val 0 (width - 3) with
    | Some front => Returns (front ++ "...")
    | None => Panics "slice bounds out of range"
    end
  else
    match strings.Repeat " " (width - len val) with
    | Some blanks => Returns (val ++ blanks)
    | None => Panics "strings: negative Repeat count"
    end.

(** One line feed. *)
Definition LF : string := String "010" "".

(** What [Help] writes for one setting, write by write: the four padded
    cells with two blanks between them and a line feed at the end.  Each
    cell goes through its colour, which wraps the text in escape sequences
    on a colour terminal and does nothing else; the text alone is kept. *)
Definition rowOf (c1 c2 c3 c4 : string) : list string :=
  [c1; "  "; c2; "  "; c3; "  "; c4 ++ LF].

Section Help.

(** [%v] of a float64, given by its bits (strconv's shortest 'g' form). *)
Variable formatFloat : Z -> string.

(** [fmt.Sprintf("%v", v)] *)
Definition Sprintf_v (v : value) : string :=
  match v with
  | VString s => s
  | VStringSlice l => "[" ++ strings.Join l " " ++ "]"
  | VInt i => strconv.Itoa i
  | VInt64 i => strconv.Itoa i
  | VFloat64 bits => formatFloat bits
  | VBool b => if b then "true" else "false"
  | VDuration d => time.String_ d
  | VNil => "<nil>"
  | VOther _ printed => printed
  end.

(** The first loop of [Help] over the entries in the order the map yields
    them: the keys and the three widths. *)
Definition measure (acc : list string * Z * Z * Z) (e : string * descriptor)
  : list string * Z * Z * Z :=
  let '(keys, width, descWidth, defvalWidth) := acc in
  let '(key, d) := e in
  let width := if width <? len key then len key else width in
  let descWidth :=
    if descWidth <? len (Description d) then len (Description d) else descWidth in
  let w := len (Sprintf_v (DefaultValue d)) in
  let defvalWidth := if defvalWidth <? w then w else defvalWidth in
  ((keys ++ [key])%list, width, descWidth, defvalWidth).

(** One turn of the second loop: the writes made, and whether the turn
    ended or a [pad] panicked on the way.  The arguments of a call are
    evaluated before it writes. *)
Definition printRow (registered : gmap string descriptor)
    (width descWidth defvalWidth : Z) (key : string)
  : list string * outcome unit :=
  let d := default zeroDescriptor (registered !! key) in
  match pad key width with
  | Panics m => ([], Panics m)
  | Returns c1 =>
  match pad (default "" (typeNames !! DataType d)) 12 with
  | Panics m => ([c1; "  "], Panics m)
  | Returns c2 =>
  match pad (Description d) descWidth with
  | Panics m => ([c1; "  "; c2; "  "], Panics m)
  | Returns c3 =>
  match pad (Sprintf_v (DefaultValue d)) defvalWidth with
  | Panics m => ([c1; "  "; c2; "  "; c3; "  "], Panics m)
  | Returns c4 => (rowOf c1 c2 c3 c4, Returns tt)
  end end end end.

(** The second loop: what is written before it ends or panics. *)
Fixpoint printRows (registered : gmap string descriptor)
    (width descWidth defvalWidth : Z) (keys : list string)
  : list string * outcome unit :=
  match keys with
  | [] => ([], Returns tt)
  | key :: keys' =>
      match printRow registered width descWidth defvalWidth key with
      | (out, Panics m) => (out, Panics m)
      | (out, Returns _) =>
          let '(out', o) := printRows registered width descWidth defvalWidth keys' in
          ((out ++ out')%list, o)
      end
  end.

(** [Help] where the map yields [entries] and [terminal.GetSize] gives
    [termSize] ([None] when it fails). *)
Definition Help_from (registered : gmap string descriptor)
    (entries : list (string * descriptor)) (termSize : option Z)
  : list string * outcome unit :=
  let '(keys, width, descWidth, defvalWidth) :=
    fold_left measure entries ([], 0, 0, 0) in
  let termWidth := default 80 termSize in
  let '(descWidth, defvalWidth) :=
    if termWidth <? width + descWidth + defvalWidth + 18 then
      let defvalWidth := if 20 <? defvalWidth then 20 else defvalWidth in
      (termWidth - width - defvalWidth - 18, defvalWidth)
    else (descWidth, defvalWidth) in
  printRows registered width descWidth defvalWidth (merge_sort String.le keys).

Definition Help (registered : gmap string descriptor) (termSize : option Z)
  : list string * outcome unit :=
  Help_from registered (map_to_list registered) termSize.

End Help.


(** ** dotenv.go *)

Section Accessors.

(** The host and the registry the accessors read. *)
Variable w : os.World.
Variable registered : gmap string descriptor.

Definition GetString (key : string) : string :=
  match os.LookupEnv w key with
  | Some val => val
  | None =>
      match Default key registered with
      | (d, true) =>
          match DefaultValue d with VString defaultValue => defaultValue | _ => "" end
      | _ => ""
      end
  end.

(** A nil slice is the empty list. *)
Definition GetStringSlice (key : string) : list string :=
  match os.LookupEnv w key with
  | Some val => strings.Split val ","
  | None =>
      match Default key registered with
      | (d, true) =>
          match DefaultValue d with
          | VStringSlice defaultValue => defaultValue
          | _ => []
          end
      | _ => []
      end
  end.

Definition GetInt (key : string) : Z :=
  let fromEnv :=
    match os.LookupEnv w key with
    | Some val =>
        match strconv.Atoi val with
        | (ival, None) => Some ival
        | _ => None
        end
    | None => None
    end in
  match fromEnv with
  | Some ival => ival
  | None =>
      match Default key registered with
      | (d, true) =>
          match DefaultValue d with VInt defaultValue => defaultValue | _ => 0 end
      | _ => 0
      end
  end.

Definition GetInt64 (key : string) : Z :=
  let fromEnv :=
    match os.LookupEnv w key with
    | Some val =>
        match strconv.ParseInt val 10 64 with
        | (ival, None) => Some ival
        | _ => None
        end
    | None => None
    end in
  match fromEnv with
  | Some ival => ival
  | None =>
      match Default key registered with
      | (d, true) =>
          match DefaultValue d with
          | VInt defaultValue => defaultValue
          | VInt64 defaultValue => defaultValue
          | _ => 0
          end
      | _ => 0
      end
  end.

Definition GetBool (key : string) : bool :=
  let fromEnv :=
    match os.LookupEnv w key with
    | Some val => strings.EqualFold val "true"
    | None => false
    end in
  if fromEnv then true
  else
    match Default key registered with
    | (d, true) =>
        match DefaultValue d with VBool defaultValue => defaultValue | _ => false end
    | _ => false
    end.

End Accessors.

(** The two accessors whose parsers compute in floating point.
    [strconv.ParseFloat(_, 64)] and [time.ParseDuration] are taken as given:
    the value they return (a float64 by its bits, a Duration in
    nanoseconds), or [None] where they return an error. *)
Section ParsedAccessors.

Variable ParseFloat : string -> option Z.
Variable ParseDuration : string -> option Z.

Variable w : os.World.
Variable registered : gmap string descriptor.

(** The float64 zero has the bits 0. *)
Definition GetFloat64 (key : string) : Z :=
  let fromEnv :=
    match os.LookupEnv w key with
    | Some val => ParseFloat val
    | None => None
    end in
  match fromEnv with
  | Some fval => fval
  | None =>
      match Default key registered with
      | (d, true) =>
          match DefaultValue d with VFloat64 defaultValue => defaultValue | _ => 0 end
      | _ => 0
      end
  end.

Definition GetDuration (key : string) : Z :=
  let fromEnv :=
    match os.LookupEnv w key with
    | Some val => ParseDuration val
    | None => None
    end in
  match fromEnv with
  | Some dval => dval
  | None =>
      match Default key registered with
      | (d, true) =>
          match DefaultValue d with VDuration defaultValue => defaultValue | _ => 0 end
      | _ => 0
      end
  end.

End ParsedAccessors.


Definition exists_ (w : os.World) (filename : string) : bool :=
  match os.Stat w filename with
  | Some isDir => negb isDir
  | None => false
  end.

(** The body of the loop of [process] for one line, [lineNo] being the
    number of that line (the first line is line 0). *)
Definition processLine (filename : string) (lineNo : Z) (line : string)
    (w : os.World) : option error * os.World :=
  let commentIdx := strings.Index line "#" in
  if commentIdx =? 0 then (None, w)
  else
    let line :=
      if negb (commentIdx =? -1) then take_bytes (Z.to_nat commentIdx) line
      else line in
    if String.eqb (strings.TrimSpace line) "" then (None, w)
    else
      match strings.SplitN line "=" 2 with
      | [part0; part1] =>
          let key := strings.TrimSpace part0 in
          let value := strings.TrimSpace part1 in
          if String.eqb key "" || String.eqb value "" then
            (Some (Errorf ("invalid environment variable assignment "
                             ++ filename ++ ":" ++ strconv.Itoa lineNo)), w)
          else
            match os.Setenv key value w with
            | (Some _, w') =>
                (Some (Errorf ("failed to assign " ++ key ++ " value " ++ value
                                 ++ " (" ++ filename ++ ":"
                                 ++ strconv.Itoa lineNo ++ ")")), w')
            | (None, w') => (None, w')
            end
      | _ =>
          (Some (Errorf ("unable to parse line "
                           ++ filename ++ ":" ++ strconv.Itoa lineNo)), w)
      end.

(** The loop of [process] over the lines the scanner yields; [lineNo] is the
    counter before the line is read. *)
Fixpoint processLines (filename : string) (lineNo : Z) (lines : list string)
    (w : os.World) : option error * os.World :=
  match lines with
  | [] => (None, w)
  | line :: rest =>
      let lineNo := lineNo + 1 in
      match processLine filename lineNo line w with
      | (Some err, w') => (Some err, w')
      | (None, w') => processLines filename lineNo rest w'
      end
  end.

Definition process (filename : string) (w : os.World) : option error * os.World :=
  match os.Open filename w with
  | (inr err, w') => (Some err, w')
  | (inl data, w') => processLines filename (-1) (bufio.ScanLines data) w'
  end.

(** The first half of [Load]: the .env file of the home directory. *)
Definition loadUser (w : os.World) : option error * os.World :=
  match os.UserHomeDir w with
  | inl home =>
      let userEnv := path.Join (path.Clean home) ".env" in
      if exists_ w userEnv then
        match process userEnv w with
        | (Some _, w') => (Some ErrBadUserFile, w')
        | (None, w') => (None, w')
        end
      else (None, w)
  | inr _ => (None, w)
  end.

(** The second half: the .env file of the working directory. *)
Definition loadLocal (w : os.World) : option error * os.World :=
  let localEnv := ".env" in
  if exists_ w localEnv then
    match process localEnv w with
    | (Some _, w') => (Some ErrBadLocalFile, w')
    | (None, w') => (None, w')
    end
  else (None, w).

Definition Load (w : os.World) : option error * os.World :=
  match loadUser w with
  | (Some err, w') => (Some err, w')
  | (None, w') => loadLocal w'
  end.


(** ** Notions the properties are stated with *)

(** The kinds of default value the data model names. *)
Inductive kind :=
| KString | KStringList | KInt | KInt64 | KFloat | KBool | KDuration | KUnsupported.

Definition kindOf (v : value) : kind :=
  match v with
  | VString _ => KString
  | VStringSlice _ => KStringList
  | VInt _ => KInt
  | VInt64 _ => KInt64
  | VFloat64 _ => KFloat
  | VBool _ => KBool
  | VDuration _ => KDuration
  | VNil | VOther _ _ => KUnsupported
  end.

(** The seven kinds the data model lists. *)
Definition listedKind (k : kind) : bool :=
  match k with KUnsupported => false | _ => true end.

(** The six kinds [Register] has a case for. *)
Definition registrableKind (k : kind) : bool :=
  match k with KUnsupported | KInt64 => false | _ => true end.

(** The type tag of a registrable kind, and the label [Help] prints for it. *)
Definition tagOf (k : kind) : Z :=
  match k with
  | KString => StringType
  | KStringList => StringSliceType
  | KInt => IntType
  | KFloat => Float64Type
  | KBool => BoolType
  | KDuration => DurationType
  | KInt64 | KUnsupported => -1
  end.

Definition labelOf (k : kind) : string :=
  match k with
  | KString => "string"
  | KStringList => "[]string"
  | KInt => "integer"
  | KFloat => "float"
  | KBool => "boolean"
  | KDuration => "duration"
  | KInt64 | KUnsupported => ""
  end.

(** [Contains s substr], as in package strings; it states what an error
    message names. *)
Fixpoint Contains (s substr : string) : bool :=
  strings.HasPrefix s substr
  || match s with
     | EmptyString => false
     | String _ s' => Contains s' substr
     end.


(** The number the decimal digits [d] make when read after [acc]. *)
Fixpoint uint_value (d : Decimal.uint) (acc : Z) : Z :=
  match d with
  | Decimal.Nil => acc
  | Decimal.D0 l => uint_value l (10 * acc)
  | Decimal.D1 l => uint_value l (10 * acc + 1)
  | Decimal.D2 l => uint_value l (10 * acc + 2)
  | Decimal.D3 l => uint_value l (10 * acc + 3)
  | Decimal.D4 l => uint_value l (10 * acc + 4)
  | Decimal.D5 l => uint_value l (10 * acc + 5)
  | Decimal.D6 l => uint_value l (10 * acc + 6)
  | Decimal.D7 l => uint_value l (10 * acc + 7)
  | Decimal.D8 l => uint_value l (10 * acc + 8)
  | Decimal.D9 l => uint_value l (10 * acc + 9)
  end.

(** A run of [Register] calls, as a program's [init] makes them: it stops
    at the first call that panics. *)
Fixpoint registerAll (calls : list (string * value * string))
    (registered : gmap string descriptor)
  : outcome unit * gmap string descriptor :=
  match calls with
  | [] => (Returns tt, registered)
  | (key, v, description) :: rest =>
      match Register key v description registered with
      | (Panics m, registered') => (Panics m, registered')
      | (Returns _, registered') => registerAll rest registered'
      end
  end.

(** What holds of every descriptor of a registry built by [Register]: it
    sits under its own name, and its tag is that of the kind of its default,
    one of the six registrable kinds. *)
Definition wellFormed (registered : gmap string descriptor) : Prop :=
  forall key d,
    registered !! key = Some d ->
    Var d = key
    /\ registrableKind (kindOf (DefaultValue d)) = true
    /\ DataType d = tagOf (kindOf (DefaultValue d)).

(** The sixteen spellings of "true" in upper and lower case. *)
Definition spelledTrue (val : string) : Prop :=
  exists c1 c2 c3 c4,
    val = String c1 (String c2 (String c3 (String c4 "")))
    /\ (c1 = "t" \/ c1 = "T")%char /\ (c2 = "r" \/ c2 = "R")%char
    /\ (c3 = "u" \/ c3 = "U")%char /\ (c4 = "e" \/ c4 = "E")%char.

(** A name and a value as a line of a .env file can assign them. *)
Definition cleanPair (k v : string) : Prop :=
  k <> "" /\ v <> ""
  /\ mem_byte "#" k = false /\ mem_byte "=" k = false /\ mem_byte "000" k = false
  /\ mem_byte "#" v = false /\ mem_byte "000" v = false.

(** Assignments made one after the other. *)
Definition assign (w : os.World) (kv : string * string) : os.World :=
  os.with_environ w (<[kv.1 := kv.2]> (os.environ w)).

Definition assignAll (kvs : list (string * string)) (w : os.World) : os.World :=
  fold_left assign kvs w.


(** The same on the environment alone. *)
Definition insertAll (kvs : list (string * string)) (env : gmap string string)
  : gmap string string :=
  fold_left (fun e kv => <[kv.1 := kv.2]> e) kvs env.


(** The greatest of a measure over the entries of a registry, 0 for none. *)
Definition widthOf (f : string * descriptor -> Z)
    (registered : gmap string descriptor) : Z :=
  foldr Z.max 0 (f <$> map_to_list registered).


(** The text of a written line or other list of strings, end to end. *)
Definition textOf (writes : list string) : string :=
  fold_right String.append "" writes.

(** A parser of floats and one of durations for the samples. *)
Definition noFloat (val : string) : option Z := None.
Definition wholeSeconds (val : string) : option Z :=
  match strconv.Atoi val with
  | (n, None) => Some (n * time.Second)
  | _ => None
  end.


(** ** Sample hosts and registries *)

(** A host with the given environment and no files. *)
Definition hostWith (vars : list (string * string)) : os.World :=
  os.mkWorld (list_to_map vars) ∅ [].

Definition bareHost : os.World := hostWith [].
Definition tlsHost : os.World := hostWith [("ENABLE_TLS", "false")].
Definition connsHost (raw : string) : os.World := hostWith [("MAX_CONNS", raw)].
Definition hostsHost (raw : string) : os.World := hostWith [("HOSTS", raw)].

(** The registry after one [Register] call on the empty registry. *)
Definition registry1 (key : string) (v : value) (description : string)
  : gmap string descriptor :=
  (Register key v description ∅).2.

Definition tlsRegistry : gmap string descriptor :=
  registry1 "ENABLE_TLS" (VBool true) "Serve over TLS".

Definition connsRegistry : gmap string descriptor :=
  registry1 "MAX_CONNS" (VInt 5) "Maximum number of connections".

(** A registry holding an [int64] default, which no [Register] call makes. *)
Definition sizeRegistry64 : gmap string descriptor :=
  {[ "MAX_CONNS" :=
       mkDescriptor "MAX_CONNS" IntType (VInt64 7) "Maximum number of connections" ]}.

(** The three registrations of the README. *)
Definition readmeRegistry : gmap string descriptor :=
  (Register "DB_URI"
     (VString "postgres://postgres@localhost/mydb?sslmode=disable")
     "Database connection URI"
     (Register "DB_DRIVER" (VString "postgres") "Name of the database driver"
        (Register "VERBOSITY" (VInt (-1)) "Set the debug logging verbosity" ∅).2).2).2.

(** A rendering of floats for the samples, none of which holds a float. *)
Definition noFloats (bits : Z) : string := "".

(** A host with a home directory, a variable set beforehand and the two
    files. *)
Definition twoFiles (userData localData : string) : os.World :=
  os.mkWorld {[ "HOME" := "/home/dev"; "DB_MAX" := "1" ]}
    {[ "/home/dev/.env" := os.File true userData; ".env" := os.File true localData ]}
    [].

(** Two files as a developer would have them: the local one has a line
    without "=" between two assignments. *)
Definition userData : string := "DB_MAX=6" ++ LF ++ "DB_MIN=2" ++ LF.
Definition localData : string :=
  "DB_MAX=8" ++ LF ++ "BADLINE" ++ LF ++ "DB_MIN=9" ++ LF.
Definition devHost : os.World := twoFiles userData localData.

(** The same with the files swapped: the home file is the one that fails. *)
Definition devHostSwapped : os.World := twoFiles localData userData.

(** The developer's host with another environment around the same HOME. *)
Definition devHostOther : os.World :=
  os.with_environ devHost (list_to_map [("HOME", "/home/dev"); ("DB_MIN", "0")]).


(** A local .env file whose second line is 64 KiB of one letter, between
    two assignments. *)
Definition longLine : string := strings.repeat_nat "x" (Z.to_nat bufio.MaxScanTokenSize).
Definition longHost : os.World :=
  os.mkWorld ∅
    {[ ".env" := os.File true (("DB_MAX=8" ++ LF) ++ longLine ++ (LF ++ "DB_MIN=9" ++ LF)) ]}
    [].


(** A local .env file whose value holds a NUL byte, and no home directory. *)
Definition nulValue : string := "ab" ++ String "000" "cd".
Definition nulHost : os.World :=
  os.mkWorld ∅ {[ ".env" := os.File true ("TOKEN=" ++ nulValue ++ LF) ]} [].

(** * Properties *)

(** ** The model on small inputs *)

Example Split_samples :
  strings.Split "a,b,c" "," = ["a"; "b"; "c"]
  /\ strings.Split "a" "," = ["a"]
  /\ strings.Split "" "," = [""]
  /\ strings.Split ",a," "," = [""; "a"; ""]
  /\ strings.SplitN "k=v=w" "=" 2 = ["k"; "v=w"]
  /\ strings.SplitN "kv" "=" 2 = ["kv"].
Proof. repeat split; reflexivity. Qed.

Example TrimSpace_samples :
  strings.TrimSpace "  a b	 " = "a b"
  /\ strings.TrimSpace (bytes [194; 160; 65; 226; 128; 137]%nat) = "A"
  /\ strings.TrimSpace (bytes [32; 194; 32]%nat) = bytes [194]%nat
  /\ strings.TrimSpace "   " = "".
Proof. repeat split; reflexivity. Qed.

Example EqualFold_samples :
  strings.EqualFold "TRUE" "true" = true
  /\ strings.EqualFold "True" "true" = true
  /\ strings.EqualFold "false" "true" = false
  /\ strings.EqualFold "yes" "true" = false
  /\ strings.EqualFold "" "true" = false
  /\ strings.EqualFold "truee" "true" = false.
Proof. repeat split; reflexivity. Qed.

Example Atoi_samples :
  strconv.Atoi "10" = (10, None)
  /\ strconv.Atoi "-42" = (-42, None)
  /\ strconv.Atoi "+7" = (7, None)
  /\ strconv.Atoi "abc" = (0, Some strconv.ErrSyntax)
  /\ strconv.Atoi "" = (0, Some strconv.ErrSyntax)
  /\ strconv.Atoi "+" = (0, Some strconv.ErrSyntax)
  /\ strconv.Atoi " 1" = (0, Some strconv.ErrSyntax)
  /\ strconv.Atoi "1_000" = (0, Some strconv.ErrSyntax)
  /\ strconv.Atoi "9223372036854775807" = (9223372036854775807, None)
  /\ strconv.Atoi "9223372036854775808" = (9223372036854775807, Some strconv.ErrRange)
  /\ strconv.Atoi "-9223372036854775808" = (-9223372036854775808, None)
  /\ strconv.Atoi "-9223372036854775809" = (-9223372036854775808, Some strconv.ErrRange)
  /\ strconv.Atoi "99999999999999999999999" = (9223372036854775807, Some strconv.ErrRange)
  /\ strconv.ParseInt "0x10" 10 64 = (0, Some strconv.ErrSyntax)
  /\ strconv.Itoa (-5) = "-5" /\ strconv.Itoa 0 = "0" /\ strconv.Itoa 120 = "120".
Proof. repeat split; vm_compute; reflexivity. Qed.

Example Clean_samples :
  path.Join (path.Clean "/home/u/") ".env" = "/home/u/.env"
  /\ path.Join (path.Clean "/") ".env" = "/.env"
  /\ path.Clean "a/../../b/./c//" = "../b/c"
  /\ path.Clean "/../a" = "/a"
  /\ path.Clean "a/.." = "."
  /\ path.Clean "../a/.." = "..".
Proof. repeat split; vm_compute; reflexivity. Qed.

Example ScanLines_samples :
  bufio.ScanLines ("a=1" ++ bytes [13; 10]%nat ++ "b" ++ LF ++ LF ++ "c")
  = ["a=1"; "b"; ""; "c"]
  /\ bufio.ScanLines ("a" ++ LF) = ["a"]
  /\ bufio.ScanLines "" = [].
Proof. repeat split; vm_compute; reflexivity. Qed.

Example Duration_samples :
  time.String_ 0 = "0s"
  /\ time.String_ 1500000000 = "1.5s"
  /\ time.String_ (3600 * 10 ^ 9) = "1h0m0s"
  /\ time.String_ (-90 * 10 ^ 9) = "-1m30s"
  /\ time.String_ 999 = "999ns"
  /\ time.String_ 2000000 = "2ms".
Proof. repeat split; vm_compute; reflexivity. Qed.

Example pad_samples :
  pad "abc" 5 = Returns "abc  "
  /\ pad "abcdefgh" 5 = Returns "ab..."
  /\ pad "abcdefgh" 3 = Returns "..."
  /\ pad "abc" 2 = Panics "slice bounds out of range"
  /\ pad "" (-1) = Panics "slice bounds out of range".
Proof. repeat split; vm_compute; reflexivity. Qed.

(** ** Strings *)

Section StringFacts.

Lemma len_nonneg s : 0 <= len s.
Proof. unfold len. lia. Qed.

Lemma len_String c s : len (String c s) = len s + 1.
Proof. unfold len. simpl. lia. Qed.

(** [++] on strings does not unfold under [simpl]; these equations do. *)
Lemma app_nil_l s : "" ++ s = s.
Proof. reflexivity. Qed.

Lemma app_String c s t : String c s ++ t = String c (s ++ t).
Proof. reflexivity. Qed.

Lemma length_append s t :
  String.length (s ++ t) = (String.length s + String.length t)%nat.
Proof.
  induction s as [|c s IH]; [done|].
  rewrite app_String. simpl. by rewrite IH.
Qed.

Lemma len_app s t : len (s ++ t) = len s + len t.
Proof. unfold len. rewrite length_append. lia. Qed.

Lemma take_bytes_app s t : take_bytes (String.length s) (s ++ t) = s.
Proof.
  induction s as [|c s IH]; [by destruct t|].
  rewrite app_String. simpl. by rewrite IH.
Qed.

Lemma drop_bytes_app s t : drop_bytes (String.length s) (s ++ t) = t.
Proof. induction s as [|c s IH]; [done|]. rewrite app_String. simpl. done. Qed.

Lemma mem_byte_app c s t : mem_byte c (s ++ t) = mem_byte c s || mem_byte c t.
Proof.
  induction s as [|d s IH]; [done|].
  rewrite app_String. simpl. rewrite IH. by rewrite orb_assoc.
Qed.

Lemma append_nil_r s : s ++ "" = s.
Proof. induction s as [|c s IH]; [done|]. rewrite app_String. by rewrite IH. Qed.

Lemma append_assoc s t u : (s ++ t) ++ u = s ++ t ++ u.
Proof.
  induction s as [|c s IH]; [done|].
  rewrite !app_String. by rewrite IH.
Qed.

Lemma eqb_byte_sym c d : Ascii.eqb c d = Ascii.eqb d c.
Proof. apply Ascii.eqb_sym. Qed.

Lemma Count_nonneg s sep : 0 <= strings.Count s sep.
Proof. induction s as [|c s IH]; simpl; [lia | destruct (Ascii.eqb c sep); lia]. Qed.

Lemma Count_le_len s sep : strings.Count s sep <= len s.
Proof.
  induction s as [|c s IH]; simpl; [done|].
  rewrite len_String. destruct (Ascii.eqb c sep); lia.
Qed.

Lemma Count_zero_mem s sep : strings.Count s sep = 0 -> mem_byte sep s = false.
Proof.
  induction s as [|c s IH]; simpl; [done|].
  pose proof (Count_nonneg s sep).
  rewrite (eqb_byte_sym sep c). destruct (Ascii.eqb c sep); simpl; [lia | auto].
Qed.

Lemma Count_app s t sep :
  strings.Count (s ++ t) sep = strings.Count s sep + strings.Count t sep.
Proof.
  induction s as [|c s IH]; [done|].
  rewrite app_String. simpl. rewrite IH. lia.
Qed.

Lemma Count_no_mem s sep : mem_byte sep s = false -> strings.Count s sep = 0.
Proof.
  induction s as [|c s IH]; simpl; [done|].
  rewrite (eqb_byte_sym sep c). destruct (Ascii.eqb c sep); simpl; [done | auto].
Qed.

(** The first occurrence of a byte cuts the string in two. *)
Lemma index_from_cut s sep i :
  0 <= i ->
  (strings.index_from i s sep = -1 /\ mem_byte sep s = false)
  \/ exists front back,
       s = front ++ String sep back /\ mem_byte sep front = false
       /\ strings.index_from i s sep = i + len front.
Proof.
  revert i. induction s as [|c s IH]; intros i Hi; simpl; [by left|].
  destruct (Ascii.eqb c sep) eqn:E.
  - apply Ascii.eqb_eq in E as ->. right. exists "", s.
    rewrite app_nil_l. split_and!; [done | done | unfold len; simpl; lia].
  - destruct (IH (i + 1)) as [[H1 H2] | (f & b & -> & H1 & H2)]; [lia | |].
    + left. by rewrite (eqb_byte_sym sep c), E.
    + right. exists (String c f), b. rewrite app_String. simpl.
      rewrite (eqb_byte_sym sep c), E.
      split_and!; [done | done | rewrite H2, len_String; lia].
Qed.

Lemma Index_none s sep : strings.Index s sep < 0 -> mem_byte sep s = false.
Proof.
  unfold strings.Index. intros H.
  destruct (index_from_cut s sep 0) as [[H1 H2] | (f & b & -> & H1 & H2)];
    [done | done |].
  pose proof (len_nonneg f). lia.
Qed.

Lemma Index_cut s sep :
  0 <= strings.Index s sep ->
  exists front back,
    s = front ++ String sep back /\ mem_byte sep front = false
    /\ strings.Index s sep = len front.
Proof.
  unfold strings.Index. intros H.
  destruct (index_from_cut s sep 0) as [[H1 H2] | (f & b & -> & H1 & H2)];
    [done | lia |].
  exists f, b. split_and!; [done | done | lia].
Qed.

(** A cut at the first occurrence determines [Index]. *)
Lemma Index_app front back sep :
  mem_byte sep front = false ->
  strings.Index (front ++ String sep back) sep = len front.
Proof.
  intros Hf. unfold strings.Index.
  assert (forall i, strings.index_from i (front ++ String sep back) sep = i + len front) as H.
  { induction front as [|c f IH]; intros i.
    - rewrite app_nil_l. simpl. rewrite Ascii.eqb_refl. unfold len; simpl; lia.
    - simpl in Hf. apply orb_false_elim in Hf as [Hc Hf].
      rewrite app_String. simpl.
      rewrite (eqb_byte_sym c sep), Hc, IH, len_String by done. lia. }
  rewrite H. lia.
Qed.

Lemma Index_no_mem s sep : mem_byte sep s = false -> strings.Index s sep = -1.
Proof.
  unfold strings.Index. generalize 0.
  induction s as [|c s IH]; intros i; simpl; [done|].
  intros [Hc Hs]%orb_false_elim. rewrite (eqb_byte_sym c sep), Hc. auto.
Qed.

Lemma take_cut front back sep :
  take_bytes (Z.to_nat (len front)) (front ++ String sep back) = front.
Proof. unfold len. rewrite Nat2Z.id. apply take_bytes_app. Qed.

Lemma drop_cut front back sep :
  drop_bytes (Z.to_nat (len front + 1)) (front ++ String sep back) = back.
Proof.
  replace (Z.to_nat (len front + 1)) with (String.length (front ++ String sep "")).
  2:{ unfold len. rewrite length_append. simpl. lia. }
  replace (front ++ String sep back) with ((front ++ String sep "") ++ back).
  2:{ by rewrite append_assoc, app_String, app_nil_l. }
  apply drop_bytes_app.
Qed.

Lemma Join_cons e rest sep :
  rest <> [] -> strings.Join (e :: rest) sep = e ++ sep ++ strings.Join rest sep.
Proof. by destruct rest. Qed.

Lemma genSplit_loop_nonempty n s sep : strings.genSplit_loop n s sep <> [].
Proof. destruct n; simpl; [done|]. by destruct (_ <? 0). Qed.

(** With as many cuts allowed as there are separators, the pieces hold no
    separator and joining them gives the string back. *)
Lemma genSplit_loop_all n s sep :
  strings.Count s sep <= Z.of_nat n ->
  strings.Join (strings.genSplit_loop n s sep) (String sep "") = s
  /\ Forall (fun piece => mem_byte sep piece = false) (strings.genSplit_loop n s sep)
  /\ Z.of_nat (length (strings.genSplit_loop n s sep)) = strings.Count s sep + 1.
Proof.
  revert s. induction n as [|n IH]; intros s Hn.
  - pose proof (Count_nonneg s sep). simpl.
    split_and!; [done | | lia].
    constructor; [|constructor]. apply Count_zero_mem. lia.
  - simpl. destruct (Z.ltb_spec (strings.Index s sep) 0) as [Hneg|Hpos].
    + apply Index_none in Hneg. simpl.
      split_and!; [done | by repeat constructor | rewrite Count_no_mem by done; lia].
    + destruct (Index_cut s sep Hpos) as (f & b & -> & Hf & ->).
      rewrite take_cut, drop_cut.
      rewrite Count_app in Hn |- *. simpl in Hn |- *.
      rewrite Ascii.eqb_refl in Hn |- *.
      rewrite (Count_no_mem f) in Hn |- * by done.
      destruct (IH b) as (HJ & HF & HL); [pose proof (Count_nonneg b sep); lia|].
      split_and!.
      * pose proof (genSplit_loop_nonempty n b sep) as Hne. revert HJ Hne.
        destruct (strings.genSplit_loop n b sep); intros HJ Hne; [done|].
        by rewrite HJ, app_String, app_nil_l.
      * by constructor.
      * lia.
Qed.

(** [Split]: the pieces between the separators, in order. *)
Lemma Split_pieces s sep :
  strings.Join (strings.Split s sep) (String sep "") = s
  /\ Forall (fun piece => mem_byte sep piece = false) (strings.Split s sep)
  /\ Z.of_nat (length (strings.Split s sep)) = strings.Count s sep + 1.
Proof.
  unfold strings.Split, strings.genSplit.
  change (-1 =? 0) with false. change (-1 <? 0) with true. cbv iota.
  pose proof (Count_nonneg s sep). pose proof (Count_le_len s sep).
  destruct (Z.ltb_spec (len s + 1) (strings.Count s sep + 1)); [lia|].
  apply genSplit_loop_all. lia.
Qed.

Lemma SplitN_2_none s sep :
  mem_byte sep s = false -> strings.SplitN s sep 2 = [s].
Proof.
  intros Hs. unfold strings.SplitN, strings.genSplit.
  change (2 =? 0) with false. change (2 <? 0) with false. cbv iota.
  destruct (Z.ltb_spec (len s + 1) 2).
  - replace (Z.to_nat (len s + 1 - 1)) with 0%nat; [done|].
    pose proof (len_nonneg s). lia.
  - change (Z.to_nat (2 - 1)) with 1%nat. simpl.
    by rewrite (Index_no_mem s sep Hs).
Qed.

Lemma SplitN_2_cut front back sep :
  mem_byte sep front = false ->
  strings.SplitN (front ++ String sep back) sep 2 = [front; back].
Proof.
  intros Hf. unfold strings.SplitN, strings.genSplit.
  change (2 =? 0) with false. change (2 <? 0) with false. cbv iota.
  destruct (Z.ltb_spec (len (front ++ String sep back) + 1) 2) as [Hlt|Hge].
  - rewrite len_app, len_String in Hlt.
    pose proof (len_nonneg front). pose proof (len_nonneg back). lia.
  - change (Z.to_nat (2 - 1)) with 1%nat. simpl.
    rewrite (Index_app front back sep Hf).
    pose proof (len_nonneg front).
    destruct (Z.ltb_spec (len front) 0); [lia|].
    by rewrite take_cut, drop_cut.
Qed.

(** *** Trimming keeps every byte that is no part of white space *)

Lemma HasPrefix_app s e :
  strings.HasPrefix s e = true -> s = e ++ drop_bytes (String.length e) s.
Proof.
  revert s. induction e as [|c e IH]; intros s; [done|].
  destruct s as [|d s]; [done|]. simpl.
  intros [Hc He]%andb_prop. apply Ascii.eqb_eq in Hc as ->.
  rewrite app_String. f_equal. auto.
Qed.

Lemma spaceWidth_prefix encs s :
  strings.spaceWidth encs s <> 0%nat ->
  exists e, In e encs /\ strings.HasPrefix s e = true
            /\ String.length e = strings.spaceWidth encs s.
Proof.
  induction encs as [|e encs IH]; simpl; [done|].
  destruct (strings.HasPrefix s e) eqn:E.
  - intros _. exists e. auto.
  - intros H. destruct (IH H) as (e' & H1 & H2 & H3). exists e'. auto.
Qed.

Lemma trimLeft_mem c encs fuel s :
  Forall (fun e => mem_byte c e = false) encs ->
  mem_byte c (strings.trimLeft fuel encs s) = mem_byte c s.
Proof.
  intros Hc. revert s. induction fuel as [|fuel IH]; intros s; [done|].
  simpl. destruct (strings.spaceWidth encs s) as [|n] eqn:E; [done|].
  destruct (spaceWidth_prefix encs s) as (e & He & Hp & Hl); [by rewrite E|].
  rewrite IH. rewrite (HasPrefix_app s e Hp) at 2.
  rewrite mem_byte_app. rewrite Forall_forall in Hc.
  rewrite (Hc e) by (by apply list_elem_of_In). by rewrite Hl, E.
Qed.

Lemma rev_string_mem c acc s :
  mem_byte c (rev_string acc s) = mem_byte c acc || mem_byte c s.
Proof.
  revert acc. induction s as [|d s IH]; intros acc; simpl; [by rewrite orb_false_r|].
  rewrite IH. simpl. destruct (Ascii.eqb c d), (mem_byte c acc); done.
Qed.

Lemma reverse_mem c s : mem_byte c (reverse s) = mem_byte c s.
Proof. unfold reverse. by rewrite rev_string_mem. Qed.

Lemma TrimSpace_mem c s :
  Forall (fun e => mem_byte c e = false) strings.spaceEncodings ->
  mem_byte c (strings.TrimSpace s) = mem_byte c s.
Proof.
  intros Hc. unfold strings.TrimSpace, strings.TrimRightSpace, strings.TrimLeftSpace.
  rewrite reverse_mem, trimLeft_mem, reverse_mem, trimLeft_mem; [done | done |].
  apply Forall_map. eapply Forall_impl; [exact Hc|].
  intros e He. simpl. by rewrite reverse_mem.
Qed.

Lemma equals_no_space :
  Forall (fun e => mem_byte "=" e = false) strings.spaceEncodings.
Proof. repeat constructor. Qed.

Lemma NUL_no_space :
  Forall (fun e => mem_byte "000" e = false) strings.spaceEncodings.
Proof. repeat constructor. Qed.

Lemma TrimSpace_blank_no_equals s :
  strings.TrimSpace s = "" -> mem_byte "=" s = false.
Proof.
  intros H. rewrite <- (TrimSpace_mem "=" s equals_no_space). by rewrite H.
Qed.


(** Every string is free of a given byte or cut by its first occurrence:
    the cuts the loader's rules are stated with exist for every line. *)
Lemma cut_at_first s sep :
  mem_byte sep s = false
  \/ exists front back, s = front ++ String sep back /\ mem_byte sep front = false.
Proof.
  destruct (Z_lt_le_dec (strings.Index s sep) 0) as [H|H].
  - left. by apply Index_none.
  - right. destruct (Index_cut s sep H) as (f & b & ? & ? & _). eauto.
Qed.

Lemma comment_cut line :
  exists content rest,
    line = content ++ rest /\ mem_byte "#" content = false
    /\ (rest = "" \/ exists r, rest = String "#" r).
Proof.
  destruct (cut_at_first line "#") as [H | (f & b & -> & H)].
  - exists line, "". rewrite append_nil_r. auto.
  - exists f, (String "#" b). eauto.
Qed.


(** *** Folding to "true" *)

Ltac fold_letter c :=
  destruct c as [[] [] [] [] [] [] [] []]; vm_compute;
  (split; [first [discriminate | auto] | intros [H | H]; first [reflexivity | discriminate H]]).

Lemma foldEq_t c : strings.foldEq c "t" = true <-> c = "t"%char \/ c = "T"%char.
Proof. fold_letter c. Qed.

Lemma foldEq_r c : strings.foldEq c "r" = true <-> c = "r"%char \/ c = "R"%char.
Proof. fold_letter c. Qed.

Lemma foldEq_u c : strings.foldEq c "u" = true <-> c = "u"%char \/ c = "U"%char.
Proof. fold_letter c. Qed.

Lemma foldEq_e c : strings.foldEq c "e" = true <-> c = "e"%char \/ c = "E"%char.
Proof. fold_letter c. Qed.

(** The strings that fold to "true" are its sixteen spellings in upper and
    lower case. *)
Lemma EqualFold_true val :
  strings.EqualFold val "true" = true
  <-> exists c1 c2 c3 c4,
        val = String c1 (String c2 (String c3 (String c4 "")))
        /\ (c1 = "t" \/ c1 = "T")%char /\ (c2 = "r" \/ c2 = "R")%char
        /\ (c3 = "u" \/ c3 = "U")%char /\ (c4 = "e" \/ c4 = "E")%char.
Proof.
  split.
  - destruct val as [|c1 [|c2 [|c3 [|c4 [|c5 rest]]]]]; simpl;
      rewrite ?andb_false_r; try discriminate.
    rewrite andb_true_r, !andb_true_iff, foldEq_t, foldEq_r, foldEq_u, foldEq_e.
    intros (H1 & H2 & H3 & H4). by exists c1, c2, c3, c4.
  - intros (c1 & c2 & c3 & c4 & -> & H1 & H2 & H3 & H4). simpl.
    rewrite andb_true_r, !andb_true_iff, foldEq_t, foldEq_r, foldEq_u, foldEq_e. done.
Qed.


End StringFacts.


(** ** Reading numbers *)

Section StrconvFacts.

Lemma of_uint_acc_value d p :
  Z.pos (Pos.of_uint_acc d p) = uint_value d (Z.pos p).
Proof.
  revert p. induction d; intros p; simpl; [done | rewrite IHd; f_equal; lia ..].
Qed.

Lemma of_uint_value d : Z.of_N (Pos.of_uint d) = uint_value d 0.
Proof.
  induction d; simpl; [done | by rewrite IHd | apply of_uint_acc_value ..].
Qed.

(** The digit loop of [Atoi] reads decimal digits as the number they
    write. *)
Lemma atoi_digits_uint d n :
  strconv.atoi_digits (NilEmpty.string_of_uint d) n = (uint_value d n, None).
Proof.
  revert n. induction d; intros n; [done | ..];
    simpl NilEmpty.string_of_uint; cbn [strconv.atoi_digits];
    match goal with
    | |- context [(code ?c - 48) mod 256] =>
        let v := eval vm_compute in ((code c - 48) mod 256) in
        change ((code c - 48) mod 256) with v
    end;
    cbn [Z.ltb Z.compare Pos.compare Pos.compare_cont uint_value];
    rewrite IHd; do 2 f_equal; lia.
Qed.

Lemma digits_head d :
  d <> Decimal.Nil ->
  exists c rest,
    NilEmpty.string_of_uint d = String c rest
    /\ Ascii.eqb c "-" = false /\ Ascii.eqb c "+" = false.
Proof. destruct d; [done | intros _; eexists _, _; split_and!; reflexivity ..]. Qed.

Lemma to_uint_value p :
  Pos.to_uint p <> Decimal.Nil /\ uint_value (Pos.to_uint p) 0 = Z.pos p.
Proof.
  pose proof (DecimalPos.Unsigned.of_to p) as H. split.
  - intros E. rewrite E in H. discriminate.
  - by rewrite <- of_uint_value, H.
Qed.

(** [Atoi] reads back the decimal text of every integer up to 18 bytes
    long, that is the integers its fast path takes. *)
Lemma Atoi_Itoa z :
  len (strconv.Itoa z) < 19 -> strconv.Atoi (strconv.Itoa z) = (z, None).
Proof.
  destruct z as [|p|p]; [reflexivity | |].
  - destruct (to_uint_value p) as [Hn Hv].
    unfold strconv.Itoa. simpl Z.to_int. simpl NilZero.string_of_int.
    assert (NilZero.string_of_uint (Pos.to_uint p) = NilEmpty.string_of_uint (Pos.to_uint p))
      as -> by (by destruct (Pos.to_uint p)).
    destruct (digits_head _ Hn) as (c & rest & Hs & Hm & Hp).
    intros Hlen. unfold strconv.Atoi.
    pose proof (atoi_digits_uint (Pos.to_uint p) 0) as Hd. rewrite Hv in Hd.
    rewrite Hs in *. rewrite len_String in *. pose proof (len_nonneg rest).
    change (strconv.intSize =? 32) with false. change (strconv.intSize =? 64) with true.
    destruct (Z.ltb_spec 0 (len rest + 1)); [|lia].
    destruct (Z.ltb_spec (len rest + 1) 19); [|lia].
    simpl orb. cbv iota. rewrite Hm, Hp. simpl orb. cbv iota. simpl andb. cbv iota.
    by rewrite Hd.
  - destruct (to_uint_value p) as [Hn Hv].
    unfold strconv.Itoa. simpl Z.to_int. simpl NilZero.string_of_int.
    assert (NilZero.string_of_uint (Pos.to_uint p) = NilEmpty.string_of_uint (Pos.to_uint p))
      as -> by (by destruct (Pos.to_uint p)).
    destruct (digits_head _ Hn) as (c & rest & Hs & Hm & Hp).
    intros Hlen. unfold strconv.Atoi.
    pose proof (atoi_digits_uint (Pos.to_uint p) 0) as Hd. rewrite Hv in Hd.
    rewrite Hs in *. rewrite !len_String in *. pose proof (len_nonneg rest).
    change (strconv.intSize =? 32) with false. change (strconv.intSize =? 64) with true.
    destruct (Z.ltb_spec 0 (len rest + 1 + 1)); [|lia].
    destruct (Z.ltb_spec (len rest + 1 + 1) 19); [|lia].
    simpl orb. cbv iota.
    change (Ascii.eqb "-" "-") with true. simpl orb. cbv iota.
    rewrite len_String. destruct (Z.ltb_spec (len rest + 1) 1); [lia|].
    by rewrite Hd.
Qed.

End StrconvFacts.


(** ** The typed accessors *)

Section AccessorFacts.

Variable w : os.World.
Variable registered : gmap string descriptor.

Lemma Default_lookup key :
  Default key registered
  = (default zeroDescriptor (registered !! key), bool_decide (is_Some (registered !! key))).
Proof. unfold Default. destruct (registered !! key); done. Qed.

(** What the accessors do once the environment gave no value. *)
Lemma GetInt_unset key :
  os.LookupEnv w key = None ->
  GetInt w registered key
  = match registered !! key with
    | Some d => match DefaultValue d with VInt v => v | _ => 0 end
    | None => 0
    end.
Proof.
  intros H. unfold GetInt, Default. rewrite H.
  destruct (registered !! key); done.
Qed.

Lemma GetInt_unparsed key val n err :
  os.LookupEnv w key = Some val -> strconv.Atoi val = (n, Some err) ->
  GetInt w registered key
  = match registered !! key with
    | Some d => match DefaultValue d with VInt v => v | _ => 0 end
    | None => 0
    end.
Proof.
  intros H1 H2. unfold GetInt, Default. rewrite H1, H2.
  destruct (registered !! key); done.
Qed.

Lemma GetInt64_fallback key :
  (os.LookupEnv w key = None
   \/ exists val n err,
        os.LookupEnv w key = Some val
        /\ strconv.ParseInt val 10 64 = (n, Some err)) ->
  GetInt64 w registered key
  = match registered !! key with
    | Some d =>
        match DefaultValue d with VInt v => v | VInt64 v => v | _ => 0 end
    | None => 0
    end.
Proof.
  intros [H | (val & n & err & H1 & H2)]; unfold GetInt64, Default.
  - rewrite H. destruct (registered !! key); done.
  - rewrite H1, H2. destruct (registered !! key); done.
Qed.

(** [GetBool] is true exactly when the variable folds to "true" or the
    registered default is the boolean true. *)
Lemma GetBool_true_iff key :
  GetBool w registered key = true
  <-> (exists val, os.LookupEnv w key = Some val /\ strings.EqualFold val "true" = true)
      \/ (exists d, registered !! key = Some d /\ DefaultValue d = VBool true).
Proof.
  unfold GetBool, Default. split.
  - destruct (os.LookupEnv w key) as [val|] eqn:E.
    + destruct (strings.EqualFold val "true") eqn:F; [left; eauto|].
      destruct (registered !! key) as [d|]; [|done].
      destruct (DefaultValue d) eqn:G; try done. intros ->. right. eauto.
    + destruct (registered !! key) as [d|]; [|done].
      destruct (DefaultValue d) eqn:G; try done. intros ->. right. eauto.
  - intros [(val & -> & ->) | (d & -> & ->)]; [done|].
    by destruct (match os.LookupEnv w key with Some _ => _ | None => _ end).
Qed.

End AccessorFacts.


(** C7. [GetInt] returns the integer [strconv.Atoi] parses from a set
    variable; when the variable is unset, or set to text [Atoi] rejects, it
    returns the registered default if that is an [int], and 0 when there is
    no descriptor or its default is of another type.  Text that does not
    parse is no error and does not stop the default from being used. *)
Theorem GetInt_resolution (w : os.World) (registered : gmap string descriptor)
    (key : string) :
  (forall val n,
      os.LookupEnv w key = Some val -> strconv.Atoi val = (n, None) ->
      GetInt w registered key = n)
  /\ ((os.LookupEnv w key = None
       \/ exists val n err,
            os.LookupEnv w key = Some val /\ strconv.Atoi val = (n, Some err)) ->
      (forall d v,
          registered !! key = Some d -> DefaultValue d = VInt v ->
          GetInt w registered key = v)
      /\ (forall d,
             registered !! key = Some d -> (forall v, DefaultValue d <> VInt v) ->
             GetInt w registered key = 0)
      /\ (registered !! key = None -> GetInt w registered key = 0)).
Proof.
  split.
  - intros val n H1 H2. unfold GetInt. by rewrite H1, H2.
  - intros Hno.
    assert (GetInt w registered key
            = match registered !! key with
              | Some d => match DefaultValue d with VInt v => v | _ => 0 end
              | None => 0
              end) as ->.
    { destruct Hno as [H | (val & n & err & H1 & H2)];
        eauto using GetInt_unset, GetInt_unparsed. }
    split_and!.
    + intros d v -> ->. done.
    + intros d -> Hd. destruct (DefaultValue d); try done. by destruct (Hd i).
    + intros ->. done.
Qed.

Lemma GetInt_resolution_witness :
  GetInt (connsHost "10") ∅ "MAX_CONNS" = 10
  /\ GetInt (connsHost "abc") connsRegistry "MAX_CONNS" = 5
  /\ GetInt bareHost connsRegistry "MAX_CONNS" = 5
  /\ GetInt (connsHost "abc") tlsRegistry "ENABLE_TLS" = 0
  /\ GetInt (connsHost "abc") ∅ "MAX_CONNS" = 0.
Proof.
  split_and!.
  - apply (proj1 (GetInt_resolution (connsHost "10") ∅ "MAX_CONNS") "10" 10);
      reflexivity.
  - refine (proj1 (proj2 (GetInt_resolution (connsHost "abc") connsRegistry "MAX_CONNS") _)
              (mkDescriptor "MAX_CONNS" IntType (VInt 5) "Maximum number of connections")
              5 _ _); [|reflexivity..].
    right. exists "abc", 0, strconv.ErrSyntax. split; reflexivity.
  - refine (proj1 (proj2 (GetInt_resolution bareHost connsRegistry "MAX_CONNS") _)
              (mkDescriptor "MAX_CONNS" IntType (VInt 5) "Maximum number of connections")
              5 _ _); [|reflexivity..].
    left. reflexivity.
  - refine (proj1 (proj2 (proj2 (GetInt_resolution (connsHost "abc") tlsRegistry "ENABLE_TLS") _))
              (mkDescriptor "ENABLE_TLS" BoolType (VBool true) "Serve over TLS") _ _);
      [|reflexivity|discriminate].
    left. reflexivity.
  - refine (proj2 (proj2 (proj2 (GetInt_resolution (connsHost "abc") ∅ "MAX_CONNS") _)) _);
      [|reflexivity].
    right. exists "abc", 0, strconv.ErrSyntax. split; reflexivity.
Defined.


(** C3, as stated, fails: with the variable unset and a default registered
    as the [int] 5, whose runtime type is not [int64], [GetInt64] returns 5
    and not 0. *)
Lemma GetInt64_int_default_not_zero :
  os.LookupEnv bareHost "MAX_CONNS" = None
  /\ connsRegistry !! "MAX_CONNS"
     = Some (mkDescriptor "MAX_CONNS" IntType (VInt 5) "Maximum number of connections")
  /\ GetInt64 bareHost connsRegistry "MAX_CONNS" = 5
  /\ GetInt64 bareHost connsRegistry "MAX_CONNS" <> 0.
Proof. split_and!; [reflexivity.. | discriminate]. Qed.

(** C3, amended. When the variable is unset, or set to text that
    [strconv.ParseInt(_, 10, 64)] rejects, [GetInt64] returns the registered
    default when its runtime type is [int64] and also when it is [int] (the
    value converted to [int64]); it returns 0 when the descriptor's default
    is of any other type and when there is no descriptor. *)
Theorem GetInt64_default_resolution (w : os.World)
    (registered : gmap string descriptor) (key : string) :
  (os.LookupEnv w key = None
   \/ exists val n err,
        os.LookupEnv w key = Some val
        /\ strconv.ParseInt val 10 64 = (n, Some err)) ->
  (forall d v,
      registered !! key = Some d -> DefaultValue d = VInt64 v ->
      GetInt64 w registered key = v)
  /\ (forall d v,
         registered !! key = Some d -> DefaultValue d = VInt v ->
         GetInt64 w registered key = v)
  /\ (forall d,
         registered !! key = Some d ->
         (forall v, DefaultValue d <> VInt64 v) ->
         (forall v, DefaultValue d <> VInt v) ->
         GetInt64 w registered key = 0)
  /\ (registered !! key = None -> GetInt64 w registered key = 0).
Proof.
  intros Hno. rewrite (GetInt64_fallback w registered key Hno).
  split_and!.
  - by intros d v -> ->.
  - by intros d v -> ->.
  - intros d -> H64 H. destruct (DefaultValue d) eqn:E; try done.
    + by destruct (H i).
    + by destruct (H64 i).
  - by intros ->.
Qed.

Lemma GetInt64_default_resolution_witness :
  GetInt64 bareHost sizeRegistry64 "MAX_CONNS" = 7
  /\ GetInt64 (connsHost "1e3") connsRegistry "MAX_CONNS" = 5
  /\ GetInt64 bareHost tlsRegistry "ENABLE_TLS" = 0
  /\ GetInt64 bareHost ∅ "MAX_CONNS" = 0.
Proof.
  split_and!.
  - refine (proj1 (GetInt64_default_resolution bareHost sizeRegistry64 "MAX_CONNS" _)
              (mkDescriptor "MAX_CONNS" IntType (VInt64 7) "Maximum number of connections")
              7 _ _); [|reflexivity..].
    left. reflexivity.
  - refine (proj1 (proj2 (GetInt64_default_resolution (connsHost "1e3") connsRegistry
                            "MAX_CONNS" _))
              (mkDescriptor "MAX_CONNS" IntType (VInt 5) "Maximum number of connections")
              5 _ _); [|reflexivity..].
    right. exists "1e3", 0, strconv.ErrSyntax. split; reflexivity.
  - refine (proj1 (proj2 (proj2 (GetInt64_default_resolution bareHost tlsRegistry
                                   "ENABLE_TLS" _)))
              (mkDescriptor "ENABLE_TLS" BoolType (VBool true) "Serve over TLS") _ _ _);
      [|reflexivity|discriminate..].
    left. reflexivity.
  - refine (proj2 (proj2 (proj2 (GetInt64_default_resolution bareHost ∅ "MAX_CONNS" _))) _);
      [|reflexivity].
    left. reflexivity.
Defined.

(** C1 at a set value other than "true": with [ENABLE_TLS=false] in the
    environment and the default [true] registered, [GetBool] returns the
    default [true]; the claim has it return [false] without consulting the
    default. *)
Theorem GetBool_set_false_returns_default :
  os.LookupEnv tlsHost "ENABLE_TLS" = Some "false"
  /\ strings.EqualFold "false" "true" = false
  /\ Default "ENABLE_TLS" tlsRegistry
     = (mkDescriptor "ENABLE_TLS" BoolType (VBool true) "Serve over TLS", true)
  /\ GetBool tlsHost tlsRegistry "ENABLE_TLS" = true
  /\ GetBool tlsHost ∅ "ENABLE_TLS" = false.
Proof. split_and!; reflexivity. Qed.

(** C10. For a set variable [GetStringSlice] returns [strings.Split] of the
    raw value at the commas: a list that is never empty, whose pieces hold
    no comma and give the raw value back when joined with commas; for the
    empty string it is the list of the empty string alone; and the registry
    plays no part in it. *)
Theorem GetStringSlice_set (w : os.World) (registered : gmap string descriptor)
    (key val : string) :
  os.LookupEnv w key = Some val ->
  GetStringSlice w registered key = strings.Split val ","
  /\ GetStringSlice w registered key <> []
  /\ strings.Join (GetStringSlice w registered key) "," = val
  /\ Forall (fun piece => mem_byte "," piece = false) (GetStringSlice w registered key)
  /\ (val = "" -> GetStringSlice w registered key = [""])
  /\ (forall registered',
         GetStringSlice w registered' key = GetStringSlice w registered key).
Proof.
  intros H.
  assert (forall r, GetStringSlice w r key = strings.Split val ",") as HS.
  { intros r. unfold GetStringSlice. by rewrite H. }
  rewrite !HS. destruct (Split_pieces val ",") as (HJ & HF & HL).
  split_and!; [done | | done | done | by intros -> | intros r; by rewrite HS].
  intros E. rewrite E in HL. simpl in HL. pose proof (Count_nonneg val ","). lia.
Qed.

Lemma GetStringSlice_set_witness :
  GetStringSlice (hostsHost "") connsRegistry "HOSTS" = [""]
  /\ GetStringSlice (hostsHost "a,b,c") connsRegistry "HOSTS" = ["a"; "b"; "c"].
Proof.
  split.
  - exact (proj1 (proj2 (proj2 (proj2 (proj2
             (GetStringSlice_set (hostsHost "") connsRegistry "HOSTS" "" eq_refl)))))
             eq_refl).
  - exact (proj1 (GetStringSlice_set (hostsHost "a,b,c") connsRegistry "HOSTS" "a,b,c"
                    eq_refl)).
Defined.


(** ** The registry *)

(** C2, as stated, fails: an [int64] default is of a listed kind, yet
    [Register] panics on it and leaves the registry as it was. *)
Lemma Register_int64_panics :
  listedKind (kindOf (VInt64 5)) = true
  /\ Register "MAX_SIZE" (VInt64 5) "Largest upload" connsRegistry
     = (Panics "invalid type", connsRegistry).
Proof. split; reflexivity. Qed.

(** C2, amended. For a default of one of the six kinds String, StringList,
    Int, Float, Bool and Duration, [Register] returns, and [Default] then
    finds a descriptor with the name, the tag of that kind (whose label is
    the kind's), the default as given and the description.  For a default of
    any other kind, [int64] among them, [Register] panics and the registry
    is unchanged. *)
Theorem Register_then_Default (key : string) (v : value) (description : string)
    (registered : gmap string descriptor) :
  (registrableKind (kindOf v) = true ->
   exists registered',
     Register key v description registered = (Returns tt, registered')
     /\ Default key registered'
        = (mkDescriptor key (tagOf (kindOf v)) v description, true)
     /\ typeNames !! tagOf (kindOf v) = Some (labelOf (kindOf v))
     /\ forall other, other <> key ->
          Default other registered' = Default other registered)
  /\ (registrableKind (kindOf v) = false ->
      Register key v description registered = (Panics "invalid type", registered)).
Proof.
  split; intros Hk.
  - destruct v; try discriminate Hk; eexists; (split_and!; [reflexivity | | reflexivity |]);
      unfold Default; simpl.
    all: try (by rewrite lookup_insert_eq).
    all: intros other Hne; by rewrite lookup_insert_ne.
  - destruct v; try discriminate Hk; reflexivity.
Qed.

Lemma Register_then_Default_witness :
  (exists registered',
      Register "HOSTS" (VStringSlice ["a"; "b"]) "Peers" connsRegistry
      = (Returns tt, registered')
      /\ Default "HOSTS" registered'
         = (mkDescriptor "HOSTS" StringSliceType (VStringSlice ["a"; "b"]) "Peers", true)
      /\ typeNames !! StringSliceType = Some "[]string"
      /\ forall other, other <> "HOSTS" ->
           Default other registered' = Default other connsRegistry)
  /\ Register "IDS" (VOther "[]int" "[1 2]") "Identifiers" connsRegistry
     = (Panics "invalid type", connsRegistry).
Proof.
  split.
  - exact (proj1 (Register_then_Default "HOSTS" (VStringSlice ["a"; "b"]) "Peers"
                    connsRegistry) eq_refl).
  - exact (proj2 (Register_then_Default "IDS" (VOther "[]int" "[1 2]") "Identifiers"
                    connsRegistry) eq_refl).
Defined.


(** ** The file loader *)

Section LoaderFacts.

Lemma Contains_app a sub b : Contains (a ++ sub ++ b) sub = true.
Proof.
  induction a as [|c a IH].
  - rewrite app_nil_l.
    assert (strings.HasPrefix (sub ++ b) sub = true) as H.
    { induction sub as [|d sub IHs]; [done|].
      rewrite app_String. simpl. by rewrite Ascii.eqb_refl, IHs. }
    revert H. generalize (sub ++ b). intros s H.
    destruct s; simpl; by rewrite H.
  - rewrite app_String. simpl. rewrite IH. apply orb_true_r.
Qed.

Lemma Contains_prefix sub b : Contains (sub ++ b) sub = true.
Proof. apply (Contains_app "" sub b). Qed.

Lemma Contains_prefix_all s : Contains s s = true.
Proof. rewrite <- (append_nil_r s) at 1. apply Contains_prefix. Qed.

Lemma Contains_skip a s sub : Contains s sub = true -> Contains (a ++ s) sub = true.
Proof.
  intros H. induction a as [|c a IH]; [done|].
  rewrite app_String. simpl. rewrite IH. apply orb_true_r.
Qed.

Lemma eqb_empty s : String.eqb s "" = true <-> s = "".
Proof. apply String.eqb_eq. Qed.

Lemma eqb_nonempty s : s <> "" -> String.eqb s "" = false.
Proof. by intros ?%String.eqb_neq. Qed.

(** A line is processed as its text before the first "#". *)
Lemma processLine_comment filename lineNo content rest w :
  mem_byte "#" content = false ->
  rest = "" \/ (exists r, rest = String "#" r) ->
  processLine filename lineNo (content ++ rest) w
  = processLine filename lineNo content w.
Proof.
  intros Hc [-> | (r & ->)]; [by rewrite append_nil_r|].
  unfold processLine. rewrite (Index_app content r "#" Hc), (Index_no_mem content "#" Hc).
  change (-1 =? 0) with false. change (negb (-1 =? -1)) with false. cbv iota.
  destruct content as [|c content].
  - reflexivity.
  - rewrite len_String. pose proof (len_nonneg content).
    destruct (Z.eqb_spec (len content + 1) 0); [lia|].
    destruct (Z.eqb_spec (len content + 1) (-1)); [lia|]. simpl negb. cbv iota.
    rewrite <- (len_String c). by rewrite take_cut.
Qed.

Lemma processLine_plain filename lineNo content w :
  mem_byte "#" content = false ->
  processLine filename lineNo content w
  = if String.eqb (strings.TrimSpace content) "" then (None, w)
    else
      match strings.SplitN content "=" 2 with
      | [part0; part1] =>
          let key := strings.TrimSpace part0 in
          let value := strings.TrimSpace part1 in
          if String.eqb key "" || String.eqb value "" then
            (Some (Errorf ("invalid environment variable assignment "
                             ++ filename ++ ":" ++ strconv.Itoa lineNo)), w)
          else
            match os.Setenv key value w with
            | (Some _, w') =>
                (Some (Errorf ("failed to assign " ++ key ++ " value " ++ value
                                 ++ " (" ++ filename ++ ":"
                                 ++ strconv.Itoa lineNo ++ ")")), w')
            | (None, w') => (None, w')
            end
      | _ =>
          (Some (Errorf ("unable to parse line "
                           ++ filename ++ ":" ++ strconv.Itoa lineNo)), w)
      end.
Proof.
  intros Hc. unfold processLine. rewrite (Index_no_mem content "#" Hc).
  reflexivity.
Qed.

(** [Setenv] changes nothing but the environment, and nothing when it
    fails. *)
Lemma Setenv_fails key value w err w' :
  os.Setenv key value w = (Some err, w') -> w' = w.
Proof. unfold os.Setenv. destruct (_ || _); congruence. Qed.

Lemma Setenv_ok key value w :
  key <> "" -> mem_byte "=" key = false -> mem_byte "000" key = false ->
  mem_byte "000" value = false ->
  os.Setenv key value w
  = (None, os.with_environ w (<[key := value]> (os.environ w))).
Proof.
  intros H1 H2 H3 H4. unfold os.Setenv.
  by rewrite (eqb_nonempty key H1), H2, H3, H4.
Qed.

Lemma Setenv_files key value w :
  os.files (os.Setenv key value w).2 = os.files w
  /\ os.opened (os.Setenv key value w).2 = os.opened w.
Proof. unfold os.Setenv. by destruct (_ || _). Qed.

(** A line that fails leaves the host as it was. *)
Lemma processLine_fails filename lineNo line w err w' :
  processLine filename lineNo line w = (Some err, w') -> w' = w.
Proof.
  unfold processLine.
  repeat match goal with
         | |- context [if ?b then _ else _] => destruct b
         | |- context [match ?l with [] => _ | _ :: _ => _ end] => destruct l
         end; try congruence.
  all: match goal with |- context [os.Setenv ?k ?v ?w0] =>
         destruct (os.Setenv k v w0) as [[e|] w1] eqn:E;
           [apply Setenv_fails in E|]; congruence
       end.
Qed.

Lemma processLine_files filename lineNo line w :
  os.files (processLine filename lineNo line w).2 = os.files w
  /\ os.opened (processLine filename lineNo line w).2 = os.opened w.
Proof.
  unfold processLine.
  repeat match goal with
         | |- context [if ?b then _ else _] => destruct b
         | |- context [match ?l with [] => _ | _ :: _ => _ end] => destruct l
         end; try done.
  all: match goal with |- context [os.Setenv ?k ?v ?w0] =>
         pose proof (Setenv_files k v w0) as H;
           destruct (os.Setenv k v w0) as [[e|] w1]; exact H
       end.
Qed.

Lemma processLines_files filename lineNo lines w :
  os.files (processLines filename lineNo lines w).2 = os.files w
  /\ os.opened (processLines filename lineNo lines w).2 = os.opened w.
Proof.
  revert lineNo w. induction lines as [|line rest IH]; intros lineNo w; [done|].
  simpl. pose proof (processLine_files filename (lineNo + 1) line w) as H.
  destruct (processLine filename (lineNo + 1) line w) as [[e|] w1]; [exact H|].
  destruct (IH (lineNo + 1) w1) as [H1 H2]. simpl in H.
  split; [by rewrite H1, (proj1 H) | by rewrite H2, (proj2 H)].
Qed.

Lemma process_files filename w :
  os.files (process filename w).2 = os.files w
  /\ os.opened (process filename w).2 = (os.opened w ++ [filename])%list.
Proof.
  unfold process, os.Open.
  destruct (os.files w !! filename) as [[|[] data]|]; simpl; try done.
  all: match goal with |- context [processLines ?f ?n ?l ?w0] =>
         destruct (processLines_files f n l w0) as [H1 H2]; by rewrite H1, H2
       end.
Qed.

(** The loop stops at the first line that fails, with the host as the
    lines before it left it. *)
Lemma processLines_stop filename lineNo before bad after w w1 err w2 :
  processLines filename lineNo before w = (None, w1) ->
  processLine filename (lineNo + Z.of_nat (length before) + 1) bad w1 = (Some err, w2) ->
  processLines filename lineNo (before ++ bad :: after)%list w = (Some err, w1).
Proof.
  revert lineNo w. induction before as [|line before IH]; intros lineNo w Hb Hbad.
  - simpl in *. injection Hb as <-. rewrite Z.add_0_r in Hbad.
    rewrite Hbad. by rewrite (processLine_fails _ _ _ _ _ _ Hbad).
  - simpl in Hb |- *.
    destruct (processLine filename (lineNo + 1) line w) as [[e|] w0]; [done|].
    apply (IH (lineNo + 1) w0 Hb).
    rewrite <- Hbad. f_equal. rewrite length_cons. lia.
Qed.

End LoaderFacts.


(** C5. Every line is handled as its text before the first "#" (all of it
    without one, none of it when "#" comes first).  When that text is blank
    after trimming the line is skipped.  Otherwise, without "=" in it the
    line fails with an error giving file and line number; with one it is cut
    at the first "=" into key and value, both trimmed of white space: if
    either is then empty the line fails with an error giving file and line
    number, and if not, and the host takes the assignment (no NUL byte in
    key or value), the variable key is set to value over whatever value it
    had. *)
Theorem processLine_rules (filename : string) (lineNo : Z) (line : string)
    (w : os.World) (content rest : string) :
  line = content ++ rest ->
  mem_byte "#" content = false ->
  rest = "" \/ (exists r, rest = String "#" r) ->
  (strings.TrimSpace content = "" ->
   processLine filename lineNo line w = (None, w))
  /\ (strings.TrimSpace content <> "" -> mem_byte "=" content = false ->
      processLine filename lineNo line w
      = (Some (Errorf ("unable to parse line " ++ filename ++ ":"
                         ++ strconv.Itoa lineNo)), w))
  /\ (forall k v,
         content = k ++ String "=" v -> mem_byte "=" k = false ->
         (strings.TrimSpace k = "" \/ strings.TrimSpace v = "" ->
          processLine filename lineNo line w
          = (Some (Errorf ("invalid environment variable assignment "
                             ++ filename ++ ":" ++ strconv.Itoa lineNo)), w))
         /\ (strings.TrimSpace k <> "" -> strings.TrimSpace v <> "" ->
             mem_byte "000" k = false -> mem_byte "000" v = false ->
             processLine filename lineNo line w
             = (None,
                os.with_environ w
                  (<[strings.TrimSpace k := strings.TrimSpace v]> (os.environ w)))
             /\ os.LookupEnv (processLine filename lineNo line w).2 (strings.TrimSpace k)
                = Some (strings.TrimSpace v))).
Proof.
  intros -> Hc Hrest.
  rewrite (processLine_comment filename lineNo content rest w Hc Hrest).
  rewrite (processLine_plain filename lineNo content w Hc).
  split_and!.
  - intros ->. reflexivity.
  - intros Hne He. rewrite (eqb_nonempty _ Hne).
    by rewrite (SplitN_2_none content "=" He).
  - intros k v -> Hk.
    assert (strings.TrimSpace (k ++ String "=" v) <> "") as Hne.
    { intros Hb. apply TrimSpace_blank_no_equals in Hb.
      rewrite mem_byte_app in Hb. simpl in Hb. by rewrite orb_true_r in Hb. }
    rewrite (eqb_nonempty _ Hne), (SplitN_2_cut k v "=" Hk). cbv zeta.
    split.
    + intros [-> | ->]; [done|]. by rewrite orb_true_r.
    + intros Hk1 Hv1 Hk0 Hv0.
      rewrite (eqb_nonempty _ Hk1), (eqb_nonempty _ Hv1). simpl orb. cbv iota.
      rewrite Setenv_ok; [| done | | |].
      * split; [done|]. unfold os.LookupEnv. simpl.
        rewrite (eqb_nonempty _ Hk1). apply lookup_insert_eq.
      * by rewrite (TrimSpace_mem "=" k equals_no_space).
      * by rewrite (TrimSpace_mem "000" k NUL_no_space).
      * by rewrite (TrimSpace_mem "000" v NUL_no_space).
Qed.

Lemma processLine_rules_witness :
  processLine ".env" 3 "  # only a comment" (twoFiles "" "") = (None, twoFiles "" "")
  /\ processLine ".env" 3 "BADLINE # no assignment" (twoFiles "" "")
     = (Some (Errorf "unable to parse line .env:3"), twoFiles "" "")
  /\ processLine ".env" 3 "DB_MAX =  # no value" (twoFiles "" "")
     = (Some (Errorf "invalid environment variable assignment .env:3"), twoFiles "" "")
  /\ os.LookupEnv (processLine ".env" 3 " DB_MAX = 6=x # six" (twoFiles "" "")).2 "DB_MAX"
     = Some "6=x".
Proof.
  split_and!.
  - refine (proj1 (processLine_rules ".env" 3 "  # only a comment" (twoFiles "" "")
                     "  " "# only a comment" eq_refl eq_refl _) eq_refl).
    right. by eexists.
  - refine (proj1 (proj2 (processLine_rules ".env" 3 "BADLINE # no assignment"
                            (twoFiles "" "") "BADLINE " "# no assignment"
                            eq_refl eq_refl _)) _ eq_refl); [|discriminate].
    right. by eexists.
  - refine (proj1 (proj2 (proj2 (processLine_rules ".env" 3 "DB_MAX =  # no value"
                                   (twoFiles "" "") "DB_MAX =  " "# no value"
                                   eq_refl eq_refl _))
                     "DB_MAX " "  " eq_refl eq_refl) _); [|right; reflexivity].
    right. by eexists.
  - refine (proj2 (proj2 (proj2 (proj2 (processLine_rules ".env" 3 " DB_MAX = 6=x # six"
                                          (twoFiles "" "") " DB_MAX = 6=x " "# six"
                                          eq_refl eq_refl _))
                                   " DB_MAX " " 6=x " eq_refl eq_refl)
                     _ _ eq_refl eq_refl)); [|discriminate..].
    right. by eexists.
Defined.


Section LoadFacts.

Lemma loadUser_files w :
  os.files (loadUser w).2 = os.files w
  /\ os.opened (loadUser w).2
     = (os.opened w
          ++ match os.UserHomeDir w with
             | inl home =>
                 if exists_ w (path.Join (path.Clean home) ".env")
                 then [path.Join (path.Clean home) ".env"] else []
             | inr _ => []
             end)%list.
Proof.
  unfold loadUser. destruct (os.UserHomeDir w) as [home|e]; simpl.
  2:{ by rewrite app_nil_r. }
  destruct (exists_ w _); simpl.
  2:{ by rewrite app_nil_r. }
  pose proof (process_files (path.Join (path.Clean home) ".env") w) as H.
  destruct (process _ w) as [[e|] w']; exact H.
Qed.

Lemma exists_files w w' name :
  os.files w' = os.files w -> exists_ w' name = exists_ w name.
Proof. intros H. unfold exists_, os.Stat. by rewrite H. Qed.

(** [Load] fails with one of its two sentinel errors only. *)
Lemma Load_error w err w' :
  Load w = (Some err, w') ->
  (err = ErrBadUserFile /\ (loadUser w).1 = Some ErrBadUserFile)
  \/ (err = ErrBadLocalFile /\ (loadUser w).1 = None
      /\ (loadLocal (loadUser w).2).1 = Some ErrBadLocalFile).
Proof.
  unfold Load. destruct (loadUser w) as [[e|] w1] eqn:E1.
  - intros [= <- <-].
    assert (e = ErrBadUserFile) as ->; [|by left].
    unfold loadUser in E1. destruct (os.UserHomeDir w); [|done].
    destruct (exists_ w _); [|done]. destruct (process _ w) as [[?|] ?]; congruence.
  - intros E2.
    assert (err = ErrBadLocalFile) as ->; [|right; simpl; by rewrite E2].
    unfold loadLocal in E2. destruct (exists_ w1 _); [|done].
    destruct (process _ w1) as [[?|] ?]; congruence.
Qed.

End LoadFacts.

(** C6. When a line of a file fails, [process] stops with the host as the
    earlier lines of that file left it, and [Load] returns its error with
    that host: every assignment made by those lines, and by the home file
    when the local file is the one that fails, is still in place. *)
Theorem Load_keeps_earlier_assignments (w : os.World) :
  (forall filename lineNo before bad after w0 w1 err w2,
      processLines filename lineNo before w0 = (None, w1) ->
      processLine filename (lineNo + Z.of_nat (length before) + 1) bad w1
      = (Some err, w2) ->
      processLines filename lineNo (before ++ bad :: after)%list w0 = (Some err, w1))
  /\ (forall home data before bad after w0 w1 err w2,
         os.UserHomeDir w = inl home ->
         exists_ w (path.Join (path.Clean home) ".env") = true ->
         os.Open (path.Join (path.Clean home) ".env") w = (inl data, w0) ->
         bufio.ScanLines data = (before ++ bad :: after)%list ->
         processLines (path.Join (path.Clean home) ".env") (-1) before w0 = (None, w1) ->
         processLine (path.Join (path.Clean home) ".env") (Z.of_nat (length before)) bad w1
         = (Some err, w2) ->
         Load w = (Some ErrBadUserFile, w1))
  /\ (forall wu data before bad after w0 w1 err w2,
         loadUser w = (None, wu) ->
         exists_ wu ".env" = true ->
         os.Open ".env" wu = (inl data, w0) ->
         bufio.ScanLines data = (before ++ bad :: after)%list ->
         processLines ".env" (-1) before w0 = (None, w1) ->
         processLine ".env" (Z.of_nat (length before)) bad w1 = (Some err, w2) ->
         Load w = (Some ErrBadLocalFile, w1)).
Proof.
  split_and!.
  - intros. eauto using processLines_stop.
  - intros home data before bad after w0 w1 err w2 Hh Hx Ho Hs Hb Hbad.
    unfold Load, loadUser. rewrite Hh, Hx. unfold process. rewrite Ho, Hs.
    erewrite processLines_stop; [done | exact Hb |].
    replace (-1 + Z.of_nat (length before) + 1) with (Z.of_nat (length before)) by lia.
    exact Hbad.
  - intros wu data before bad after w0 w1 err w2 Hu Hx Ho Hs Hb Hbad.
    unfold Load. rewrite Hu. unfold loadLocal. rewrite Hx. unfold process.
    rewrite Ho, Hs.
    erewrite processLines_stop; [done | exact Hb |].
    replace (-1 + Z.of_nat (length before) + 1) with (Z.of_nat (length before)) by lia.
    exact Hbad.
Qed.


Lemma Load_keeps_earlier_assignments_witness :
  processLines ".env" (-1) ["DB_MAX=8"; "BADLINE"; "DB_MIN=9"] bareHost
  = (Some (Errorf "unable to parse line .env:1"),
     hostWith [("DB_MAX", "8")])
  /\ ((Load devHostSwapped).1 = Some ErrBadUserFile
      /\ os.LookupEnv (Load devHostSwapped).2 "DB_MAX" = Some "8"
      /\ os.LookupEnv (Load devHostSwapped).2 "DB_MIN" = None)
  /\ ((Load devHost).1 = Some ErrBadLocalFile
      /\ os.LookupEnv (Load devHost).2 "DB_MAX" = Some "8"
      /\ os.LookupEnv (Load devHost).2 "DB_MIN" = Some "2").
Proof.
  split; [|split].
  - exact (proj1 (Load_keeps_earlier_assignments bareHost)
             ".env" (-1) ["DB_MAX=8"] "BADLINE" ["DB_MIN=9"] bareHost
             (hostWith [("DB_MAX", "8")])
             (Errorf "unable to parse line .env:1") (hostWith [("DB_MAX", "8")])
             eq_refl eq_refl).
  - set (w0 := (os.Open "/home/dev/.env" devHostSwapped).2).
    set (w1 := (processLines "/home/dev/.env" (-1) ["DB_MAX=8"] w0).2).
    rewrite (proj1 (proj2 (Load_keeps_earlier_assignments devHostSwapped))
               "/home/dev" localData ["DB_MAX=8"] "BADLINE" ["DB_MIN=9"] w0 w1
               (Errorf "unable to parse line /home/dev/.env:1") w1
               eq_refl eq_refl eq_refl eq_refl eq_refl eq_refl).
    split_and!; reflexivity.
  - set (wu := (loadUser devHost).2).
    set (w0 := (os.Open ".env" wu).2).
    set (w1 := (processLines ".env" (-1) ["DB_MAX=8"] w0).2).
    rewrite (proj2 (proj2 (Load_keeps_earlier_assignments devHost))
               wu localData ["DB_MAX=8"] "BADLINE" ["DB_MIN=9"] w0 w1
               (Errorf "unable to parse line .env:1") w1
               eq_refl eq_refl eq_refl eq_refl eq_refl eq_refl).
    split_and!; reflexivity.
Defined.




(** C8, as stated, fails: the value of [TOKEN] holds a NUL byte, so setting
    it fails and [process] says so with key, value, file and line; [Load]
    returns [ErrBadLocalFile] instead, whose message has none of the key,
    the value and the line number. *)
Lemma Load_drops_assignment_details :
  process ".env" nulHost
  = (Some (Errorf ("failed to assign TOKEN value " ++ nulValue ++ " (.env:0)")),
     os.mkWorld ∅ (os.files nulHost) [".env"])
  /\ (Load nulHost).1 = Some ErrBadLocalFile
  /\ Contains (Error ErrBadLocalFile) "TOKEN" = false
  /\ Contains (Error ErrBadLocalFile) nulValue = false
  /\ Contains (Error ErrBadLocalFile) (strconv.Itoa 0) = false.
Proof. split_and!; reflexivity. Qed.

(** C8, amended. When setting the variable of a line fails, the error
    [process] stops with names the key, the value, the file and the line
    number.  [Load] does not pass that error on: whatever went wrong in a
    file, it returns [ErrBadUserFile] or [ErrBadLocalFile], which tells the
    file only. *)
Theorem Setenv_failure_reported (filename : string) (lineNo : Z) (line : string)
    (w : os.World) (content rest k v : string) (err : error) (w' : os.World) :
  line = content ++ rest ->
  mem_byte "#" content = false ->
  rest = "" \/ (exists r, rest = String "#" r) ->
  content = k ++ String "=" v -> mem_byte "=" k = false ->
  strings.TrimSpace k <> "" -> strings.TrimSpace v <> "" ->
  os.Setenv (strings.TrimSpace k) (strings.TrimSpace v) w = (Some err, w') ->
  (exists msg,
      processLine filename lineNo line w = (Some (Errorf msg), w)
      /\ msg = "failed to assign " ++ strings.TrimSpace k ++ " value "
                 ++ strings.TrimSpace v ++ " (" ++ filename ++ ":"
                 ++ strconv.Itoa lineNo ++ ")"
      /\ Contains msg (strings.TrimSpace k) = true
      /\ Contains msg (strings.TrimSpace v) = true
      /\ Contains msg filename = true
      /\ Contains msg (strconv.Itoa lineNo) = true)
  /\ (forall host e host',
         Load host = (Some e, host') -> e = ErrBadUserFile \/ e = ErrBadLocalFile).
Proof.
  intros -> Hc Hrest -> Hk Hk1 Hv1 Hset. split.
  - rewrite (processLine_comment filename lineNo _ rest w Hc Hrest).
    rewrite (processLine_plain filename lineNo _ w Hc).
    assert (strings.TrimSpace (k ++ String "=" v) <> "") as Hne.
    { intros Hb. apply TrimSpace_blank_no_equals in Hb.
      rewrite mem_byte_app in Hb. simpl in Hb. by rewrite orb_true_r in Hb. }
    rewrite (eqb_nonempty _ Hne), (SplitN_2_cut k v "=" Hk). cbv zeta.
    rewrite (eqb_nonempty _ Hk1), (eqb_nonempty _ Hv1). simpl orb. cbv iota.
    rewrite Hset. rewrite (Setenv_fails _ _ _ _ _ Hset).
    eexists. split; [reflexivity|]. split; [reflexivity|].
    set (key := strings.TrimSpace k). set (value := strings.TrimSpace v).
    split_and!; repeat first [apply Contains_prefix | apply Contains_skip].
  - intros host e host' HL.
    destruct (Load_error host e host' HL) as [[-> _] | [-> _]]; auto.
Qed.


Lemma Setenv_failure_reported_witness :
  (exists msg,
      processLine ".env" 0 ("TOKEN=" ++ nulValue) nulHost = (Some (Errorf msg), nulHost)
      /\ msg = "failed to assign TOKEN value " ++ nulValue ++ " (.env:0)"
      /\ Contains msg "TOKEN" = true
      /\ Contains msg nulValue = true
      /\ Contains msg ".env" = true
      /\ Contains msg "0" = true)
  /\ (forall host e host',
         Load host = (Some e, host') -> e = ErrBadUserFile \/ e = ErrBadLocalFile).
Proof.
  exact (Setenv_failure_reported ".env" 0 ("TOKEN=" ++ nulValue) nulHost
           ("TOKEN=" ++ nulValue) "" "TOKEN" nulValue (SyscallError "setenv") nulHost
           eq_refl eq_refl (or_introl eq_refl) eq_refl eq_refl
           ltac:(discriminate) ltac:(discriminate) eq_refl).
Defined.

(** ** The help printer *)

Section HelpFacts.

Variable formatFloat : Z -> string.

(** [pad] panics exactly when the text is longer than a width below 3. *)
Lemma pad_returns val width :
  len val <= width \/ 3 <= width -> exists cell, pad val width = Returns cell.
Proof.
  intros H. unfold pad, slice, strings.Repeat.
  pose proof (len_nonneg val).
  destruct (Z.ltb_spec width (len val)).
  - assert (3 <= width) by lia.
    replace ((0 <=? 0) && (0 <=? width - 3) && (width - 3 <=? len val)) with true; [eauto|].
    symmetry. rewrite !andb_true_iff, !Z.leb_le. lia.
  - destruct (Z.ltb_spec (width - len val) 0); [lia | eauto].
Qed.

Lemma pad_panics val width :
  width < len val -> width < 3 -> pad val width = Panics "slice bounds out of range".
Proof.
  intros H1 H2. unfold pad, slice.
  destruct (Z.ltb_spec width (len val)); [|lia].
  replace (0 <=? width - 3) with false; [done|].
  symmetry. apply Z.leb_gt. lia.
Qed.

(** A text that fits is followed by blanks up to the width. *)
Lemma pad_fits val width :
  len val <= width ->
  pad val width = Returns (val ++ strings.repeat_nat " " (Z.to_nat (width - len val))).
Proof.
  intros H. unfold pad, strings.Repeat.
  destruct (Z.ltb_spec width (len val)); [lia|].
  by destruct (Z.ltb_spec (width - len val) 0); [lia|].
Qed.

(** The first loop collects the keys in the order of the entries, and
    widths that no name, description and printed default exceeds. *)
Lemma measure_fold entries keys width descWidth defvalWidth :
  exists width' descWidth' defvalWidth',
    fold_left (measure formatFloat) entries (keys, width, descWidth, defvalWidth)
    = ((keys ++ entries.*1)%list, width', descWidth', defvalWidth')
    /\ width <= width' /\ descWidth <= descWidth' /\ defvalWidth <= defvalWidth'
    /\ Forall (fun e =>
                 len e.1 <= width' /\ len (Description e.2) <= descWidth'
                 /\ len (Sprintf_v formatFloat (DefaultValue e.2)) <= defvalWidth')
         entries.
Proof.
  revert keys width descWidth defvalWidth.
  induction entries as [|[key d] entries IH]; intros keys width descWidth defvalWidth.
  - exists width, descWidth, defvalWidth. simpl. rewrite app_nil_r.
    split_and!; [done | lia | lia | lia | constructor].
  - simpl fold_left.
    match goal with |- context [fold_left _ entries (?ks, ?a, ?b, ?c)] =>
      destruct (IH ks a b c) as (w' & d' & v' & -> & Hw & Hd & Hv & HF)
    end.
    exists w', d', v'. rewrite <- app_assoc. simpl.
    split_and!; [done | | | |].
    + destruct (Z.ltb_spec width (len key)); lia.
    + destruct (Z.ltb_spec descWidth (len (Description d))); lia.
    + destruct (Z.ltb_spec defvalWidth (len (Sprintf_v formatFloat (DefaultValue d)))); lia.
    + constructor; [|done]. simpl.
      destruct (Z.ltb_spec width (len key));
        destruct (Z.ltb_spec descWidth (len (Description d)));
        destruct (Z.ltb_spec defvalWidth (len (Sprintf_v formatFloat (DefaultValue d))));
        lia.
Qed.

Lemma typeNames_short tag : len (default "" (typeNames !! tag)) <= 12.
Proof.
  unfold typeNames. simpl.
  repeat (rewrite lookup_insert; case_decide; [vm_compute; discriminate|]).
  rewrite lookup_empty. vm_compute. discriminate.
Qed.

Lemma printRows_returns registered width descWidth defvalWidth keys :
  Forall (fun key =>
            exists out,
              printRow formatFloat registered width descWidth defvalWidth key
              = (out, Returns tt)) keys ->
  exists rows,
    printRows formatFloat registered width descWidth defvalWidth keys
    = (concat rows, Returns tt)
    /\ Forall2 (fun key out =>
                  printRow formatFloat registered width descWidth defvalWidth key
                  = (out, Returns tt)) keys rows.
Proof.
  induction 1 as [|key keys [out Hout] _ (rows & Hrows & HF)].
  - exists []. split; [done | constructor].
  - exists (out :: rows). simpl. rewrite Hout, Hrows. split; [done | by constructor].
Qed.

Lemma printRow_row registered width descWidth defvalWidth key out :
  printRow formatFloat registered width descWidth defvalWidth key = (out, Returns tt) ->
  exists c1 c2 c3 c4, pad key width = Returns c1 /\ out = rowOf c1 c2 c3 c4.
Proof.
  unfold printRow.
  destruct (pad key width) as [c1|]; [|done].
  destruct (pad (default "" _) 12) as [c2|]; [|done].
  destruct (pad (Description _) descWidth) as [c3|]; [|done].
  destruct (pad (Sprintf_v _ _) defvalWidth) as [c4|]; [|done].
  intros [= <-]. by exists c1, c2, c3, c4.
Qed.

Lemma printRows_rows registered width descWidth defvalWidth keys out :
  printRows formatFloat registered width descWidth defvalWidth keys = (out, Returns tt) ->
  exists rows,
    out = concat rows
    /\ Forall2 (fun key row =>
                  printRow formatFloat registered width descWidth defvalWidth key
                  = (row, Returns tt)) keys rows.
Proof.
  revert out. induction keys as [|key keys IH]; intros out; simpl.
  - intros [= <-]. exists []. split; [done | constructor].
  - destruct (printRow _ _ _ _ _ key) as [row [[]|m]] eqn:E; [|done].
    destruct (printRows _ _ _ _ _ keys) as [out' o] eqn:E'.
    intros [= <- ->]. destruct (IH out' eq_refl) as (rows & -> & HF).
    exists (row :: rows). split; [done | by constructor].
Qed.

(** The names [Help] goes through: those of the registry, each once, in
    ascending order. *)
Lemma sorted_keys (registered : gmap string descriptor) :
  let keys := merge_sort String.le (map_to_list registered).*1 in
  Sorted String.le keys /\ NoDup keys
  /\ (forall key, key ∈ keys <-> is_Some (registered !! key))
  /\ length keys = size registered.
Proof.
  intros keys. pose proof (merge_sort_Permutation String.le (map_to_list registered).*1) as HP.
  fold keys in HP. split_and!.
  - apply (Sorted_merge_sort String.le).
  - rewrite HP. apply NoDup_fst_map_to_list.
  - intros key. rewrite HP, list_elem_of_fmap. split.
    + intros ([k d] & -> & Hin). apply elem_of_map_to_list in Hin. by exists d.
    + intros [d Hd]. exists (key, d). split; [done|]. by apply elem_of_map_to_list.
  - rewrite HP, length_fmap. apply length_map_to_list.
Qed.

Lemma keys_within (registered : gmap string descriptor) width descWidth defvalWidth :
  Forall (fun e =>
            len e.1 <= width /\ len (Description e.2) <= descWidth
            /\ len (Sprintf_v formatFloat (DefaultValue e.2)) <= defvalWidth)
    (map_to_list registered) ->
  forall key, key ∈ merge_sort String.le (map_to_list registered).*1 ->
    exists d, registered !! key = Some d
              /\ len key <= width /\ len (Description d) <= descWidth
              /\ len (Sprintf_v formatFloat (DefaultValue d)) <= defvalWidth.
Proof.
  intros HF key Hin. rewrite merge_sort_Permutation in Hin.
  apply list_elem_of_fmap in Hin as ([k d] & -> & Hin).
  rewrite Forall_forall in HF. destruct (HF _ Hin) as (H1 & H2 & H3).
  apply elem_of_map_to_list in Hin. eauto.
Qed.

Lemma Forall2_with {A B} (R S : A -> B -> Prop) l k :
  (forall x y, x ∈ l -> R x y -> S x y) -> Forall2 R l k -> Forall2 S l k.
Proof.
  intros H HR. induction HR as [|x y l k Hxy HR IH]; constructor.
  - apply H; [left | done].
  - apply IH. intros x' y' Hin. apply H. by right.
Qed.

(** When [Help] returns it has written one line per registered name, the
    names in ascending order, each line starting with its name and the
    blanks that bring it to the longest name's width. *)
Lemma Help_rows (registered : gmap string descriptor) (termSize : option Z) out :
  Help formatFloat registered termSize = (out, Returns tt) ->
  exists keys rows,
    Sorted String.le keys /\ NoDup keys
    /\ (forall key, key ∈ keys <-> is_Some (registered !! key))
    /\ out = concat rows
    /\ Forall2 (fun key row =>
                  exists blanks c2 c3 c4, row = rowOf (key ++ blanks) c2 c3 c4)
         keys rows.
Proof.
  unfold Help, Help_from.
  destruct (measure_fold (map_to_list registered) [] 0 0 0)
    as (W & D & V & -> & _ & _ & _ & HF).
  change (([] ++ (map_to_list registered).*1)%list) with ((map_to_list registered).*1).
  destruct (sorted_keys registered) as (HS & HN & Hin & _).
  set (keys := merge_sort String.le (map_to_list registered).*1) in *.
  destruct (if default 80 termSize <? W + D + V + 18 then _ else _) as [D' V'].
  intros (rows & -> & HR)%printRows_rows.
  exists keys, rows. split_and!; [done..|].
  eapply Forall2_with; [|exact HR].
  intros key row Hkey Hrow. simpl in Hrow.
  destruct (printRow_row _ _ _ _ _ _ Hrow) as (c1 & c2 & c3 & c4 & Hc1 & ->).
  destruct (keys_within registered W D V HF key Hkey) as (d & _ & Hk & _).
  rewrite (pad_fits key W Hk) in Hc1. injection Hc1 as <-. eauto.
Qed.


(** [Help] returns whenever the columns fit the terminal, and also when
    they do not but at least 3 columns are left for the descriptions. *)
Lemma Help_returns (registered : gmap string descriptor) (termSize : option Z)
    keys width descWidth defvalWidth :
  fold_left (measure formatFloat) (map_to_list registered) ([], 0, 0, 0)
  = (keys, width, descWidth, defvalWidth) ->
  (default 80 termSize < width + descWidth + defvalWidth + 18 ->
   3 <= default 80 termSize - width - Z.min defvalWidth 20 - 18) ->
  exists rows,
    Help formatFloat registered termSize = (concat rows, Returns tt)
    /\ length rows = size registered.
Proof.
  intros Hfold Hwide. unfold Help, Help_from. rewrite Hfold.
  destruct (measure_fold (map_to_list registered) [] 0 0 0)
    as (W & D & V & Hf & _ & _ & _ & HF).
  rewrite Hfold in Hf. injection Hf as -> -> -> ->.
  change (([] ++ (map_to_list registered).*1)%list) with ((map_to_list registered).*1).
  set (term := default 80 termSize) in *.
  set (sorted := merge_sort String.le (map_to_list registered).*1).
  assert (exists D' V',
             (if term <? W + D + V + 18
              then (term - W - (if 20 <? V then 20 else V) - 18, if 20 <? V then 20 else V)
              else (D, V)) = (D', V')
             /\ (D <= D' \/ 3 <= D') /\ (V <= V' \/ 3 <= V')) as (D' & V' & -> & HD & HV).
  { destruct (Z.ltb_spec term (W + D + V + 18)) as [Hn|Hw].
    - eexists _, _. split; [reflexivity|]. specialize (Hwide Hn).
      destruct (Z.ltb_spec 20 V); split; lia.
    - exists D, V. split; [done|]. lia. }
  destruct (printRows_returns registered W D' V' sorted) as (rows & Hrows & HR).
  - apply Forall_forall. intros key Hkey.
    destruct (keys_within registered W D V HF key Hkey) as (d & Hd & Hk & Hdesc & Hval).
    unfold printRow. rewrite Hd. change (default zeroDescriptor (Some d)) with d. cbv zeta.
    rewrite (pad_fits key W Hk).
    destruct (pad_returns (default "" (typeNames !! DataType d)) 12) as [c2 ->];
      [left; apply typeNames_short|].
    destruct (pad_returns (Description d) D') as [c3 ->]; [lia|].
    destruct (pad_returns (Sprintf_v formatFloat (DefaultValue d)) V') as [c4 ->]; [lia|].
    eauto.
  - exists rows. split; [done|].
    rewrite <- (Forall2_length _ _ _ HR).
    apply (sorted_keys registered).
Qed.


(** *** The order in which the map yields its entries does not matter *)

Lemma foldr_max_init (l : list Z) a x :
  foldr Z.max (Z.max a x) l = Z.max x (foldr Z.max a l).
Proof. induction l as [|y l IH]; simpl; [lia | rewrite IH; lia]. Qed.

Lemma foldr_max_perm (l l' : list Z) a :
  l ≡ₚ l' -> foldr Z.max a l = foldr Z.max a l'.
Proof. induction 1; simpl; [done | congruence | lia | congruence]. Qed.

Lemma measure_widths entries keys width descWidth defvalWidth :
  fold_left (measure formatFloat) entries (keys, width, descWidth, defvalWidth)
  = ((keys ++ entries.*1)%list,
     foldr Z.max width ((fun e => len e.1) <$> entries),
     foldr Z.max descWidth ((fun e => len (Description e.2)) <$> entries),
     foldr Z.max defvalWidth
       ((fun e => len (Sprintf_v formatFloat (DefaultValue e.2))) <$> entries)).
Proof.
  revert keys width descWidth defvalWidth.
  induction entries as [|[key d] entries IH]; intros keys width descWidth defvalWidth.
  - simpl. by rewrite app_nil_r.
  - simpl fold_left. rewrite IH, <- app_assoc. simpl.
    rewrite <- !foldr_max_init. repeat f_equal.
    + destruct (Z.ltb_spec width (len key)); lia.
    + destruct (Z.ltb_spec descWidth (len (Description d))); lia.
    + destruct (Z.ltb_spec defvalWidth (len (Sprintf_v formatFloat (DefaultValue d)))); lia.
Qed.

Lemma merge_sort_perm (l l' : list string) :
  l ≡ₚ l' -> merge_sort String.le l = merge_sort String.le l'.
Proof.
  intros HP. apply (Sorted_unique String.le).
  - apply (Sorted_merge_sort String.le).
  - apply (Sorted_merge_sort String.le).
  - by rewrite !merge_sort_Permutation.
Qed.

(** X18. [Help] writes the same whatever the order in which the map of
    the registry yields its entries. *)
Lemma Help_from_any_order (registered : gmap string descriptor)
    (entries : list (string * descriptor)) (termSize : option Z) :
  entries ≡ₚ map_to_list registered ->
  Help_from formatFloat registered entries termSize
  = Help formatFloat registered termSize.
Proof.
  intros HP. unfold Help, Help_from. rewrite !measure_widths.
  change (([] ++ ?l)%list) with l.
  rewrite (foldr_max_perm _ _ 0 (fmap_Permutation (fun e => len e.1) _ _ HP)).
  rewrite (foldr_max_perm _ _ 0
             (fmap_Permutation (fun e => len (Description e.2)) _ _ HP)).
  rewrite (foldr_max_perm _ _ 0
             (fmap_Permutation
                (fun e => len (Sprintf_v formatFloat (DefaultValue e.2))) _ _ HP)).
  by rewrite (merge_sort_perm _ _ (fmap_Permutation fst _ _ HP)).
Qed.


End HelpFacts.


(** C9 at a narrow terminal: with the three settings of the README
    registered and a terminal 40 columns wide, the description column gets
    the width 40 - 9 - 20 - 18 = -7, and [pad] slices the first description
    at -10: [Help] panics in its first row, after the name and the type.
    The same happens without a terminal (80 columns) once a name is long
    enough. *)
Theorem Help_panics_when_narrow :
  Help noFloats readmeRegistry (Some 40)
  = (["DB_DRIVER"; "  "; "string      "; "  "], Panics "slice bounds out of range")
  /\ pad "Name of the database driver" (40 - 9 - 20 - 18)
     = Panics "slice bounds out of range"
  /\ (Help noFloats
        (registry1 "A_SETTING_WITH_A_NAME_AS_LONG_AS_SOME_TEAMS_LIKE_TO_WRITE_THEM"
           (VBool true) "On or off")
        None).2
     = Panics "slice bounds out of range"
  /\ (Help noFloats readmeRegistry None).2 = Returns tt.
Proof. split_and!; vm_compute; reflexivity. Qed.

(** * Further properties of the package *)

(** ** The registry over several calls *)

Section RegistryFacts.

Lemma Register_returns key v description registered :
  registrableKind (kindOf v) = true ->
  Register key v description registered
  = (Returns tt,
     <[key := mkDescriptor key (tagOf (kindOf v)) v description]> registered).
Proof. destruct v; try discriminate; reflexivity. Qed.

Lemma Register_panics key v description registered :
  registrableKind (kindOf v) = false ->
  Register key v description registered = (Panics "invalid type", registered).
Proof. destruct v; try discriminate; reflexivity. Qed.

Lemma Register_wellFormed key v description registered :
  wellFormed registered -> wellFormed (Register key v description registered).2.
Proof.
  intros HW. destruct (registrableKind (kindOf v)) eqn:Hk.
  - rewrite (Register_returns _ _ _ _ Hk). simpl. intros k d.
    rewrite lookup_insert. case_decide as Hkey.
    + intros [= <-]. simpl. by subst.
    + apply HW.
  - by rewrite (Register_panics _ _ _ _ Hk).
Qed.

Lemma registerAll_wellFormed calls registered :
  wellFormed registered -> wellFormed (registerAll calls registered).2.
Proof.
  revert registered. induction calls as [|[[key v] description] calls IH];
    intros registered HW; [done|].
  simpl. pose proof (Register_wellFormed key v description registered HW) as H.
  destruct (Register key v description registered) as [[[]|m] registered']; simpl in *;
    [by apply IH | done].
Qed.

Lemma label_of_tag k :
  registrableKind k = true ->
  typeNames !! tagOf k = Some (labelOf k) /\ labelOf k <> "".
Proof. destruct k; try discriminate; split; done. Qed.

End RegistryFacts.

(** X1. Registering a name again replaces its descriptor whole: after the
    second call the registry is what the second call alone would have made
    of the first registry, whatever the first call registered (or panicked
    on).  Calls for different names do not depend on their order. *)
Theorem Register_again (key : string) (v1 v2 : value) (d1 d2 : string)
    (registered : gmap string descriptor) :
  registrableKind (kindOf v2) = true ->
  Register key v2 d2 (Register key v1 d1 registered).2
  = Register key v2 d2 registered
  /\ Default key (Register key v2 d2 (Register key v1 d1 registered).2).2
     = (mkDescriptor key (tagOf (kindOf v2)) v2 d2, true)
  /\ (forall other v3 d3,
         other <> key -> registrableKind (kindOf v3) = true ->
         (Register key v2 d2 (Register other v3 d3 registered).2).2
         = (Register other v3 d3 (Register key v2 d2 registered).2).2).
Proof.
  intros H2. rewrite !(Register_returns key v2 d2 _ H2). split_and!.
  - destruct (registrableKind (kindOf v1)) eqn:H1.
    + rewrite (Register_returns key v1 d1 _ H1). simpl. by rewrite insert_insert_eq.
    + by rewrite (Register_panics key v1 d1 _ H1).
  - unfold Default. simpl. by rewrite lookup_insert_eq.
  - intros other v3 d3 Hne H3.
    rewrite !(Register_returns other v3 d3 _ H3), (Register_returns key v2 d2 _ H2).
    simpl. by apply insert_insert_ne.
Qed.

Lemma Register_again_witness :
  Register "MAX_CONNS" (VInt 9) "More" connsRegistry
  = Register "MAX_CONNS" (VInt 9) "More" ∅
  /\ Default "MAX_CONNS" (Register "MAX_CONNS" (VInt 9) "More" connsRegistry).2
     = (mkDescriptor "MAX_CONNS" IntType (VInt 9) "More", true).
Proof.
  pose proof (Register_again "MAX_CONNS" (VInt 5) (VInt 9)
                "Maximum number of connections" "More" ∅ eq_refl) as (H1 & H2 & _).
  split; [exact H1 | exact H2].
Defined.

(** X2. Every descriptor of a registry built by [Register] calls alone sits
    under its own name, holds a default of one of the six registrable kinds
    (never an [int64]) with the tag of that kind, and has a label in
    [typeNames] that is not blank. *)
Theorem registered_descriptors (calls : list (string * value * string))
    (key : string) (d : descriptor) :
  (registerAll calls ∅).2 !! key = Some d ->
  Var d = key
  /\ registrableKind (kindOf (DefaultValue d)) = true
  /\ (forall i, DefaultValue d <> VInt64 i)
  /\ DataType d = tagOf (kindOf (DefaultValue d))
  /\ typeNames !! DataType d = Some (labelOf (kindOf (DefaultValue d)))
  /\ labelOf (kindOf (DefaultValue d)) <> "".
Proof.
  intros Hd.
  assert (wellFormed ∅) as H0 by (intros k x Hx; by rewrite lookup_empty in Hx).
  destruct (registerAll_wellFormed calls ∅ H0 key d Hd) as (HV & HK & HT).
  destruct (label_of_tag _ HK) as [HL HN].
  split_and!; [done | done | | done | by rewrite HT | done].
  intros i Hi. rewrite Hi in HK. discriminate.
Qed.

Lemma registered_descriptors_witness :
  Var (mkDescriptor "DB_DRIVER" StringType (VString "postgres")
         "Name of the database driver") = "DB_DRIVER"
  /\ typeNames !! StringType = Some "string".
Proof.
  pose proof (registered_descriptors
                [("VERBOSITY", VInt (-1), "Set the debug logging verbosity");
                 ("DB_DRIVER", VString "postgres", "Name of the database driver");
                 ("BROKEN", VInt64 3, "Never stored");
                 ("DB_URI", VString "x", "Never reached")]
                "DB_DRIVER"
                (mkDescriptor "DB_DRIVER" StringType (VString "postgres")
                   "Name of the database driver")
                eq_refl) as (H1 & _ & _ & _ & H5 & _).
  split; [exact H1 | exact H5].
Defined.

(** ** The accessors against [Register] and the environment *)

Section MoreAccessorFacts.

Variable ParseFloat : string -> option Z.
Variable ParseDuration : string -> option Z.

Lemma Default_after_Register key v description registered registered' :
  Register key v description registered = (Returns tt, registered') ->
  Default key registered' = (mkDescriptor key (tagOf (kindOf v)) v description, true).
Proof.
  destruct (registrableKind (kindOf v)) eqn:Hk.
  - rewrite (Register_returns _ _ _ _ Hk). intros [= <-].
    unfold Default. by rewrite lookup_insert_eq.
  - by rewrite (Register_panics _ _ _ _ Hk).
Qed.

Lemma LookupEnv_after_Setenv key value w w' :
  os.Setenv key value w = (None, w') ->
  os.LookupEnv w' key = Some value
  /\ forall other, other <> key -> os.LookupEnv w' other = os.LookupEnv w other.
Proof.
  unfold os.Setenv. destruct (String.eqb key "") eqn:Hk; [done|].
  destruct (_ || _); [done|]. intros [= <-]. unfold os.LookupEnv. simpl.
  rewrite Hk. split; [apply lookup_insert_eq|].
  intros other Hne. destruct (String.eqb other ""); [done|].
  by apply lookup_insert_ne.
Qed.

End MoreAccessorFacts.

(** X3. [GetString] returns the value of a set variable as it is, the empty
    string included, whatever is registered: a variable set to nothing hides
    a registered default.  Only for an unset variable does it return the
    registered default, if that is a string, and the empty string otherwise. *)
Theorem GetString_resolution (w : os.World) (registered : gmap string descriptor)
    (key : string) :
  (forall val, os.LookupEnv w key = Some val -> GetString w registered key = val)
  /\ (os.LookupEnv w key = None ->
      (forall d s,
          registered !! key = Some d -> DefaultValue d = VString s ->
          GetString w registered key = s)
      /\ (forall d,
             registered !! key = Some d -> (forall s, DefaultValue d <> VString s) ->
             GetString w registered key = "")
      /\ (registered !! key = None -> GetString w registered key = "")).
Proof.
  unfold GetString, Default. split.
  - by intros val ->.
  - intros ->. split_and!.
    + by intros d s -> ->.
    + intros d -> Hd. destruct (DefaultValue d) eqn:E; try done. by destruct (Hd s).
    + by intros ->.
Qed.

Lemma GetString_resolution_witness :
  GetString (hostWith [("DB_DRIVER", "")]) readmeRegistry "DB_DRIVER" = ""
  /\ GetString bareHost readmeRegistry "DB_DRIVER" = "postgres"
  /\ GetString bareHost readmeRegistry "VERBOSITY" = ""
  /\ GetString bareHost readmeRegistry "DB_NAME" = "".
Proof.
  split; [|split; [|split]].
  - exact (proj1 (GetString_resolution (hostWith [("DB_DRIVER", "")]) readmeRegistry
                    "DB_DRIVER") "" eq_refl).
  - exact (proj1 (proj2 (GetString_resolution bareHost readmeRegistry "DB_DRIVER") eq_refl)
             (mkDescriptor "DB_DRIVER" StringType (VString "postgres")
                "Name of the database driver") "postgres" eq_refl eq_refl).
  - refine (proj1 (proj2 (proj2 (GetString_resolution bareHost readmeRegistry "VERBOSITY")
                            eq_refl))
              (mkDescriptor "VERBOSITY" IntType (VInt (-1))
                 "Set the debug logging verbosity") eq_refl _).
    discriminate.
  - exact (proj2 (proj2 (proj2 (GetString_resolution bareHost readmeRegistry "DB_NAME")
                           eq_refl)) eq_refl).
Defined.

(** X4. A default comes back through the accessor of its type: after
    [Register(key, v, _)] returned, and with the variable unset, the
    accessor for the type of [v] returns [v], [GetInt64] also returns an
    [int] default, and every other accessor returns its zero value. *)
Theorem Register_then_Get (ParseFloat ParseDuration : string -> option Z)
    (w : os.World) (registered registered' : gmap string descriptor)
    (key : string) (v : value) (description : string) :
  os.LookupEnv w key = None ->
  Register key v description registered = (Returns tt, registered') ->
  GetString w registered' key = match v with VString s => s | _ => "" end
  /\ GetStringSlice w registered' key = match v with VStringSlice l => l | _ => [] end
  /\ GetInt w registered' key = match v with VInt i => i | _ => 0 end
  /\ GetInt64 w registered' key = match v with VInt i => i | _ => 0 end
  /\ GetFloat64 ParseFloat w registered' key
     = match v with VFloat64 bits => bits | _ => 0 end
  /\ GetBool w registered' key = match v with VBool b => b | _ => false end
  /\ GetDuration ParseDuration w registered' key
     = match v with VDuration d => d | _ => 0 end.
Proof.
  intros Henv Hreg. pose proof (Default_after_Register _ _ _ _ _ Hreg) as HD.
  unfold GetString, GetStringSlice, GetInt, GetInt64, GetFloat64, GetBool, GetDuration.
  rewrite Henv, HD. simpl.
  destruct v; done.
Qed.

Lemma Register_then_Get_witness :
  GetInt bareHost connsRegistry "MAX_CONNS" = 5
  /\ GetInt64 bareHost connsRegistry "MAX_CONNS" = 5
  /\ GetString bareHost connsRegistry "MAX_CONNS" = ""
  /\ GetBool bareHost connsRegistry "MAX_CONNS" = false.
Proof.
  pose proof (Register_then_Get noFloat wholeSeconds bareHost ∅ connsRegistry
                "MAX_CONNS" (VInt 5) "Maximum number of connections" eq_refl eq_refl)
    as (H1 & _ & H3 & H4 & _ & H6 & _).
  split_and!; [exact H3 | exact H4 | exact H1 | exact H6].
Defined.

(** X5. What a program stores with [os.Setenv(key, strconv.Itoa(z))]
    [GetInt] reads back as [z], whatever is registered, for every [z] whose
    decimal text is at most 18 bytes long. *)
Theorem Setenv_then_GetInt (w w' : os.World) (registered : gmap string descriptor)
    (key : string) (z : Z) :
  os.Setenv key (strconv.Itoa z) w = (None, w') ->
  len (strconv.Itoa z) < 19 ->
  GetInt w' registered key = z.
Proof.
  intros [Hset _]%LookupEnv_after_Setenv Hlen.
  unfold GetInt. by rewrite Hset, (Atoi_Itoa z Hlen).
Qed.

Lemma Setenv_then_GetInt_witness :
  GetInt (os.Setenv "MAX_CONNS" "-120" bareHost).2 connsRegistry "MAX_CONNS" = -120.
Proof.
  apply (Setenv_then_GetInt bareHost (os.Setenv "MAX_CONNS" "-120" bareHost).2
           connsRegistry "MAX_CONNS" (-120)); [reflexivity | vm_compute; reflexivity].
Defined.

(** X6. Where the registered default is not the boolean [true], [GetBool]
    is true exactly when the variable is set to one of the sixteen spellings
    of "true" in upper and lower case; any other text, with white space
    around it or not, gives [false]. *)
Theorem GetBool_spellings (w : os.World) (registered : gmap string descriptor)
    (key : string) :
  (forall d, registered !! key = Some d -> DefaultValue d <> VBool true) ->
  GetBool w registered key = true
  <-> exists val, os.LookupEnv w key = Some val /\ spelledTrue val.
Proof.
  intros Hdef. rewrite GetBool_true_iff. split.
  - intros [(val & Hval & Hfold) | (d & Hd & Hv)].
    + exists val. split; [done|]. by apply EqualFold_true.
    + by destruct (Hdef d Hd).
  - intros (val & Hval & Hs). left. exists val. split; [done|]. by apply EqualFold_true.
Qed.

Lemma GetBool_spellings_witness :
  GetBool (hostWith [("ENABLE_TLS", "TRue")]) connsRegistry "ENABLE_TLS" = true
  /\ GetBool (hostWith [("ENABLE_TLS", " true")]) connsRegistry "ENABLE_TLS" <> true.
Proof.
  split.
  - apply (GetBool_spellings (hostWith [("ENABLE_TLS", "TRue")]) connsRegistry "ENABLE_TLS").
    + intros d Hd. discriminate Hd.
    + exists "TRue". split; [reflexivity|].
      exists "T"%char, "R"%char, "u"%char, "e"%char. split_and!; auto.
  - intros H.
    apply (GetBool_spellings (hostWith [("ENABLE_TLS", " true")]) connsRegistry "ENABLE_TLS")
      in H as (val & Hval & c1 & c2 & c3 & c4 & -> & _).
    + discriminate Hval.
    + intros d Hd. discriminate Hd.
Defined.

(** ** [GetInt] and [GetInt64] *)

Section IntFacts.

Lemma code_range c : 0 <= code c < 256.
Proof. unfold code. pose proof (nat_ascii_bounded c). lia. Qed.

(** Under 18 digits the digit loop of [Atoi] and the checked loop of
    [ParseUint] do the same. *)
Lemma digit_loops_agree s n k :
  0 <= n < 10 ^ k -> 0 <= k -> k + len s <= 18 ->
  strconv.parseUint_loop s 10 (strconv.maxUint64 / 10 + 1) (2 ^ 64 - 1) n
  = strconv.atoi_digits s n
  /\ forall m err, strconv.atoi_digits s n = (m, err) ->
       0 <= m < 10 ^ 18 /\ (err = None \/ (err = Some strconv.ErrSyntax /\ m = 0)).
Proof.
  revert n k. induction s as [|c s IH]; intros n k Hn Hk Hlen.
  - simpl. split; [done|]. intros m err [= <- <-]. split; [|by left].
    assert (10 ^ k <= 10 ^ 18) by (apply Z.pow_le_mono_r; unfold len in *; simpl in *; lia).
    lia.
  - rewrite len_String in Hlen. pose proof (len_nonneg s).
    assert (10 ^ k <= 10 ^ 17) as Hk17 by (apply Z.pow_le_mono_r; lia).
    assert (10 ^ (k + 1) = 10 * 10 ^ k) as Hpow
      by (rewrite Z.pow_add_r by lia; change (10 ^ 1) with 10; lia).
    pose proof (code_range c) as Hc.
    cbn [strconv.parseUint_loop strconv.atoi_digits].
    change (strconv.maxUint64 / 10 + 1) with 1844674407370955162.
    change (2 ^ 64) with 18446744073709551616.
    change (10 ^ 17) with 100000000000000000 in Hk17.
    destruct (Z.ltb_spec 9 ((code c - 48) mod 256)) as [Hbad|Hgood].
    + assert (negb ((48 <=? code c) && (code c <=? 57)) = true) as Hnd.
      { apply negb_true_iff, andb_false_iff. rewrite !Z.leb_gt.
        clear -Hbad Hc. revert Hbad Hc. generalize (code c). intros x Hbad Hx.
        Z.div_mod_to_equations. lia. }
      apply negb_true_iff in Hnd. rewrite Hnd. split.
      * destruct ((97 <=? strconv.lower (code c)) && (strconv.lower (code c) <=? 122))
          eqn:Hl; [|done].
        apply andb_prop in Hl as [Hl _]. apply Z.leb_le in Hl.
        destruct (Z.leb_spec 10 (strconv.lower (code c) - 97 + 10)); [done | lia].
      * intros m err [= <- <-]. split; [done|]. right. done.
    + assert (48 <= code c <= 57) as Hd.
      { clear -Hgood Hc. revert Hgood Hc. generalize (code c). intros x Hgood Hx.
        Z.div_mod_to_equations. lia. }
      rewrite (Z.mod_small (code c - 48) 256) by lia.
      replace ((48 <=? code c) && (code c <=? 57)) with true
        by (symmetry; apply andb_true_iff; rewrite !Z.leb_le; lia).
      destruct (Z.leb_spec 10 (code c - 48)); [lia|].
      destruct (Z.leb_spec 1844674407370955162 n); [lia|].
      rewrite (Z.mod_small (n * 10)) by lia.
      rewrite (Z.mod_small (n * 10 + (code c - 48))) by lia.
      destruct (Z.ltb_spec (n * 10 + (code c - 48)) (n * 10)); [lia|].
      destruct (Z.ltb_spec (18446744073709551616 - 1) (n * 10 + (code c - 48))); [lia|].
      simpl orb. cbv iota.
      apply (IH (n * 10 + (code c - 48)) (k + 1)); lia.
Qed.

(** On a 64-bit platform [Atoi] is [ParseInt] in base 10 and 64 bits. *)
Lemma Atoi_ParseInt s : strconv.Atoi s = strconv.ParseInt s 10 64.
Proof.
  unfold strconv.Atoi.
  change (strconv.intSize =? 32) with false. change (strconv.intSize =? 64) with true.
  simpl andb. simpl orb.
  destruct ((0 <? len s) && (len s <? 19)) eqn:Hfast; [|by destruct s].
  apply andb_prop in Hfast as [H0 H19]. apply Z.ltb_lt in H0, H19.
  destruct s as [|c0 rest]; [done|]. rewrite len_String in *.
  unfold strconv.ParseInt, strconv.ParseUint.
  change (64 =? 0) with false. cbv iota.
  change (2 ^ (64 - 1)) with 9223372036854775808.
  change (10 ^ 18) with 1000000000000000000 in *.
  rewrite (orb_comm (Ascii.eqb c0 "+")).
  set (signed := Ascii.eqb c0 "-" || Ascii.eqb c0 "+").
  set (s1 := if signed then rest else String c0 rest).
  assert (len s1 <= 18) as Hs1.
  { unfold s1. destruct signed; rewrite ?len_String; lia. }
  destruct (digit_loops_agree s1 0 0) as [Hloop Hres]; [simpl; lia | lia | lia |].
  destruct s1 as [|c1 s2] eqn:Es1.
  - assert (signed = true) as Hs by (unfold s1 in Es1; by destruct signed).
    rewrite Hs. simpl. done.
  - rewrite len_String. pose proof (len_nonneg s2).
    destruct (Z.ltb_spec (len s2 + 1) 1); [lia|]. rewrite andb_false_r. cbv iota.
    rewrite Hloop.
    destruct (strconv.atoi_digits (String c1 s2) 0) as [m err] eqn:Ed.
    destruct (Hres m err eq_refl) as [Hm [-> | [-> ->]]]; [|done].
    change (10 ^ 18) with 1000000000000000000 in Hm.
    destruct (Z.leb_spec 9223372036854775808 m); [lia|]. rewrite andb_false_r. cbv iota.
    destruct (Z.ltb_spec 9223372036854775808 m); [lia|]. rewrite andb_false_r. cbv iota.
    done.
Qed.

End IntFacts.

(** X7. On a registry built by [Register] calls (and on any registry
    without an [int64] default for the key) [GetInt] and [GetInt64] return
    the same number, for every key and every environment, [int] being 64
    bits wide. *)
Theorem GetInt_GetInt64_agree (w : os.World) (registered : gmap string descriptor)
    (key : string) :
  (forall d i, registered !! key = Some d -> DefaultValue d <> VInt64 i) ->
  GetInt w registered key = GetInt64 w registered key.
Proof.
  intros Hno. unfold GetInt, GetInt64.
  assert (match Default key registered with
          | (d, true) => match DefaultValue d with VInt v => v | _ => 0 end
          | _ => 0
          end
          = match Default key registered with
            | (d, true) =>
                match DefaultValue d with VInt v => v | VInt64 v => v | _ => 0 end
            | _ => 0
            end) as Hfb.
  { unfold Default. destruct (registered !! key) as [d|] eqn:Hd; [|done].
    destruct (DefaultValue d) eqn:Hv; try done. by destruct (Hno d i eq_refl). }
  destruct (os.LookupEnv w key) as [val|]; [|exact Hfb].
  rewrite Atoi_ParseInt.
  destruct (strconv.ParseInt val 10 64) as [n [e|]]; [exact Hfb | done].
Qed.

Lemma GetInt_GetInt64_agree_witness :
  GetInt (connsHost "4096") connsRegistry "MAX_CONNS"
  = GetInt64 (connsHost "4096") connsRegistry "MAX_CONNS"
  /\ GetInt (connsHost "9223372036854775808") connsRegistry "MAX_CONNS"
     = GetInt64 (connsHost "9223372036854775808") connsRegistry "MAX_CONNS".
Proof.
  split.
  - apply (GetInt_GetInt64_agree (connsHost "4096") connsRegistry "MAX_CONNS").
    intros d i [= <-]. discriminate.
  - apply (GetInt_GetInt64_agree (connsHost "9223372036854775808") connsRegistry
             "MAX_CONNS").
    intros d i [= <-]. discriminate.
Defined.

(** ** What a file does to the environment *)

Section FileFacts.

Lemma hash_no_space :
  Forall (fun e => mem_byte "#" e = false) strings.spaceEncodings.
Proof. repeat constructor. Qed.

(** What a line does is the same on every host: nothing, one assignment of
    a clean pair, or an error that gives the file and the line number. *)
Lemma processLine_uniform filename lineNo line :
  (forall w, processLine filename lineNo line w = (None, w))
  \/ (exists k v,
        cleanPair k v
        /\ forall w, processLine filename lineNo line w = (None, assign w (k, v)))
  \/ (exists msg,
        Contains msg (filename ++ ":" ++ strconv.Itoa lineNo) = true
        /\ forall w, processLine filename lineNo line w = (Some (Errorf msg), w)).
Proof.
  destruct (comment_cut line) as (content & rest & -> & Hc & Hrest).
  destruct (String.eqb (strings.TrimSpace content) "") eqn:Hblank.
  { left. intros w. rewrite (processLine_comment _ _ _ _ _ Hc Hrest).
    rewrite (processLine_plain _ _ _ _ Hc). by rewrite Hblank. }
  destruct (cut_at_first content "=") as [Hno | (k & v & -> & Hk)].
  { right; right. eexists. split; [|intros w].
    2:{ rewrite (processLine_comment _ _ _ _ _ Hc Hrest).
        rewrite (processLine_plain _ _ _ _ Hc), Hblank.
        rewrite (SplitN_2_none content "=" Hno). reflexivity. }
    apply Contains_skip, Contains_prefix_all. }
  rewrite mem_byte_app in Hc. apply orb_false_elim in Hc as [Hck Hcv].
  simpl in Hcv.
  assert (mem_byte "#" (k ++ String "=" v) = false) as Hc.
  { rewrite mem_byte_app. simpl. by rewrite Hck, Hcv. }
  set (key := strings.TrimSpace k). set (value := strings.TrimSpace v).
  destruct (String.eqb key "" || String.eqb value "") eqn:Hempty.
  { right; right. eexists. split; [|intros w].
    2:{ rewrite (processLine_comment _ _ _ _ _ Hc Hrest).
        rewrite (processLine_plain _ _ _ _ Hc), Hblank.
        rewrite (SplitN_2_cut k v "=" Hk). cbv zeta. fold key value.
        rewrite Hempty. reflexivity. }
    apply Contains_skip, Contains_prefix_all. }
  apply orb_false_elim in Hempty as [Hke Hve].
  destruct (mem_byte "000" key || mem_byte "000" value) eqn:Hnul.
  - right; right. eexists. split; [|intros w].
    2:{ rewrite (processLine_comment _ _ _ _ _ Hc Hrest).
        rewrite (processLine_plain _ _ _ _ Hc), Hblank.
        rewrite (SplitN_2_cut k v "=" Hk). cbv zeta. fold key value.
        rewrite Hke, Hve. simpl orb. cbv iota.
        unfold os.Setenv. rewrite Hke.
        replace (false || mem_byte "=" key || mem_byte "000" key || mem_byte "000" value)
          with true; [reflexivity|].
        symmetry. apply orb_prop in Hnul as [-> | ->]; by rewrite ?orb_true_r. }
    do 5 apply Contains_skip.
    rewrite <- (append_assoc ":" (strconv.Itoa lineNo) ")").
    rewrite <- (append_assoc filename (":" ++ strconv.Itoa lineNo) ")").
    apply Contains_prefix.
  - right; left. apply orb_false_elim in Hnul as [Hnk Hnv].
    apply String.eqb_neq in Hke, Hve.
    assert (mem_byte "=" key = false) as Hek.
    { unfold key. by rewrite (TrimSpace_mem "=" k equals_no_space). }
    exists key, value. split.
    + unfold cleanPair, key, value.
      rewrite !(TrimSpace_mem "#" _ hash_no_space). by split_and!.
    + intros w. rewrite (processLine_comment _ _ _ _ _ Hc Hrest).
      rewrite (processLine_plain _ _ _ _ Hc), Hblank.
      rewrite (SplitN_2_cut k v "=" Hk). cbv zeta. fold key value.
      rewrite (eqb_nonempty _ Hke), (eqb_nonempty _ Hve). simpl orb. cbv iota.
      by rewrite (Setenv_ok key value w Hke Hek Hnk Hnv).
Qed.

End FileFacts.

Section FileRuns.

Lemma assignAll_parts kvs w :
  os.environ (assignAll kvs w) = insertAll kvs (os.environ w)
  /\ os.files (assignAll kvs w) = os.files w
  /\ os.opened (assignAll kvs w) = os.opened w.
Proof.
  revert w. induction kvs as [|kv kvs IH]; intros w; [done|].
  simpl. destruct (IH (assign w kv)) as (-> & -> & ->). done.
Qed.

(** Where the assignments of a run leave a variable depends on the run
    alone: untouched, or set to the value of the last assignment to it. *)
Lemma insertAll_lookup kvs k :
  (forall env, insertAll kvs env !! k = env !! k)
  \/ (exists v, (k, v) ∈ kvs /\ forall env, insertAll kvs env !! k = Some v).
Proof.
  induction kvs as [|[k' v'] kvs IH]; [by left|].
  destruct IH as [Hsame | (v & Hin & Hset)].
  - destruct (decide (k' = k)) as [->|Hne].
    + right. exists v'. split; [left|]. intros env. simpl.
      rewrite Hsame. apply lookup_insert_eq.
    + left. intros env. simpl. rewrite Hsame. by apply lookup_insert_ne.
  - right. exists v. split; [by right|]. intros env. simpl. apply Hset.
Qed.

Lemma insertAll_twice kvs env : insertAll kvs (insertAll kvs env) = insertAll kvs env.
Proof.
  apply map_eq. intros k.
  destruct (insertAll_lookup kvs k) as [Hsame | (v & _ & Hset)].
  - by rewrite Hsame.
  - by rewrite !Hset.
Qed.

Lemma insertAll_app kvs1 kvs2 env :
  insertAll (kvs1 ++ kvs2) env = insertAll kvs2 (insertAll kvs1 env).
Proof. unfold insertAll. by rewrite fold_left_app. Qed.

(** The loop over the lines of a file: the outcome and the assignments made
    are the same on every host, and an error gives the index of the line it
    stopped at, the lines before having been processed. *)
Lemma processLines_uniform filename lineNo lines :
  exists o kvs,
    Forall (fun kv => cleanPair kv.1 kv.2) kvs
    /\ (forall w, processLines filename lineNo lines w = (o, assignAll kvs w))
    /\ (forall err, o = Some err ->
          exists (i : nat) msg,
            err = Errorf msg /\ (i < length lines)%nat
            /\ Contains msg (filename ++ ":" ++ strconv.Itoa (lineNo + 1 + Z.of_nat i))
               = true
            /\ forall w,
                 processLines filename lineNo (take i lines) w = (None, assignAll kvs w)).
Proof.
  revert lineNo. induction lines as [|line lines IH]; intros lineNo.
  - exists None, []. split_and!; [constructor | done | done].
  - destruct (IH (lineNo + 1)) as (o & kvs & HF & Hrun & Herr).
    destruct (processLine_uniform filename (lineNo + 1) line)
      as [Hskip | [(k & v & Hclean & Hset) | (msg & Hmsg & Hfail)]].
    + exists o, kvs. split_and!; [done | |].
      * intros w. simpl. by rewrite Hskip, Hrun.
      * intros err Ho. destruct (Herr err Ho) as (i & m & -> & Hi & Hm & Hpre).
        exists (S i), m. split_and!; [done | simpl; lia | |].
        -- replace (lineNo + 1 + Z.of_nat (S i)) with (lineNo + 1 + 1 + Z.of_nat i) by lia.
           exact Hm.
        -- intros w. simpl. by rewrite Hskip, Hpre.
    + exists o, ((k, v) :: kvs). split_and!; [by constructor | |].
      * intros w. simpl. by rewrite Hset, Hrun.
      * intros err Ho. destruct (Herr err Ho) as (i & m & -> & Hi & Hm & Hpre).
        exists (S i), m. split_and!; [done | simpl; lia | |].
        -- replace (lineNo + 1 + Z.of_nat (S i)) with (lineNo + 1 + 1 + Z.of_nat i) by lia.
           exact Hm.
        -- intros w. simpl. by rewrite Hset, Hpre.
    + exists (Some (Errorf msg)), []. split_and!; [constructor | |].
      * intros w. simpl. by rewrite Hfail.
      * intros err [= <-]. exists 0%nat, msg. split_and!; [done | simpl; lia | | done].
        replace (lineNo + 1 + Z.of_nat 0) with (lineNo + 1) by lia. exact Hmsg.
Qed.

(** The world after [Open] logged a name. *)
Lemma process_uniform filename w :
  exists o kvs,
    Forall (fun kv => cleanPair kv.1 kv.2) kvs
    /\ forall w2,
         os.files w2 = os.files w ->
         process filename w2
         = (o, assignAll kvs
                 (os.mkWorld (os.environ w2) (os.files w2)
                    (os.opened w2 ++ [filename]))).
Proof.
  destruct (os.files w !! filename) as [[|[] data]|] eqn:Hf.
  - exists None, []. split; [constructor|]. intros w2 H2.
    unfold process, os.Open. by rewrite H2, Hf.
  - destruct (processLines_uniform filename (-1) (bufio.ScanLines data))
      as (o & kvs & HF & Hrun & _).
    exists o, kvs. split; [done|]. intros w2 H2.
    unfold process, os.Open. by rewrite H2, Hf, Hrun.
  - eexists _, []. split; [constructor|]. intros w2 H2.
    unfold process, os.Open. by rewrite H2, Hf.
  - eexists _, []. split; [constructor|]. intros w2 H2.
    unfold process, os.Open. by rewrite H2, Hf.
Qed.

(** [Load] as a whole: its outcome and the assignments it makes depend on
    the files and on HOME only. *)
Lemma Load_uniform w :
  exists o kvs,
    Forall (fun kv => cleanPair kv.1 kv.2) kvs
    /\ forall w2,
         os.files w2 = os.files w -> os.Getenv w2 "HOME" = os.Getenv w "HOME" ->
         (Load w2).1 = o
         /\ os.environ (Load w2).2 = insertAll kvs (os.environ w2)
         /\ os.files (Load w2).2 = os.files w2.
Proof.
  (* the home file *)
  assert (exists o1 kvs1,
             Forall (fun kv => cleanPair kv.1 kv.2) kvs1
             /\ forall w2,
                  os.files w2 = os.files w -> os.Getenv w2 "HOME" = os.Getenv w "HOME" ->
                  (loadUser w2).1 = o1
                  /\ os.environ (loadUser w2).2 = insertAll kvs1 (os.environ w2)
                  /\ os.files (loadUser w2).2 = os.files w2) as (o1 & kvs1 & HF1 & H1).
  { destruct (os.UserHomeDir w) as [home|e] eqn:Hh.
    - destruct (exists_ w (path.Join (path.Clean home) ".env")) eqn:Hx.
      + destruct (process_uniform (path.Join (path.Clean home) ".env") w)
          as (o & kvs & HF & Hrun).
        exists (match o with Some _ => Some ErrBadUserFile | None => None end), kvs.
        split; [done|]. intros w2 Hf2 Hh2. unfold loadUser, os.UserHomeDir.
        rewrite Hh2. unfold os.UserHomeDir in Hh. rewrite Hh.
        rewrite (exists_files w w2 _ Hf2), Hx, (Hrun w2 Hf2).
        destruct (assignAll_parts kvs
                    (os.mkWorld (os.environ w2) (os.files w2)
                       (os.opened w2 ++ [path.Join (path.Clean home) ".env"])))
          as (He & Hfs & _).
        by destruct o.
      + exists None, []. split; [constructor|]. intros w2 Hf2 Hh2.
        unfold loadUser, os.UserHomeDir.
        rewrite Hh2. unfold os.UserHomeDir in Hh. rewrite Hh.
        by rewrite (exists_files w w2 _ Hf2), Hx.
    - exists None, []. split; [constructor|]. intros w2 Hf2 Hh2.
      unfold loadUser, os.UserHomeDir.
      rewrite Hh2. unfold os.UserHomeDir in Hh. by rewrite Hh. }
  (* the local file *)
  assert (exists o2 kvs2,
             Forall (fun kv => cleanPair kv.1 kv.2) kvs2
             /\ forall w2,
                  os.files w2 = os.files w ->
                  (loadLocal w2).1 = o2
                  /\ os.environ (loadLocal w2).2 = insertAll kvs2 (os.environ w2)
                  /\ os.files (loadLocal w2).2 = os.files w2) as (o2 & kvs2 & HF2 & H2).
  { destruct (exists_ w ".env") eqn:Hx.
    - destruct (process_uniform ".env" w) as (o & kvs & HF & Hrun).
      exists (match o with Some _ => Some ErrBadLocalFile | None => None end), kvs.
      split; [done|]. intros w2 Hf2. unfold loadLocal.
      rewrite (exists_files w w2 _ Hf2), Hx, (Hrun w2 Hf2).
      destruct (assignAll_parts kvs
                  (os.mkWorld (os.environ w2) (os.files w2) (os.opened w2 ++ [".env"])))
        as (He & Hfs & _).
      by destruct o.
    - exists None, []. split; [constructor|]. intros w2 Hf2. unfold loadLocal.
      by rewrite (exists_files w w2 _ Hf2), Hx. }
  destruct o1 as [e1|].
  - exists (Some e1), kvs1. split; [done|]. intros w2 Hf2 Hh2.
    destruct (H1 w2 Hf2 Hh2) as (Ho & He & Hfs). unfold Load.
    destruct (loadUser w2) as [[e|] wu]; simpl in *; [|done]. by rewrite Ho.
  - exists o2, (kvs1 ++ kvs2)%list. split; [by apply Forall_app|]. intros w2 Hf2 Hh2.
    destruct (H1 w2 Hf2 Hh2) as (Ho & He & Hfs). unfold Load.
    destruct (loadUser w2) as [[e|] wu]; simpl in *; [done|].
    destruct (H2 wu) as (Ho2 & He2 & Hfs2); [congruence|].
    rewrite insertAll_app, <- He. split_and!; [done | done | congruence].
Qed.

End FileRuns.

(** X8. [Load] only ever sets variables, and only to clean pairs: after it,
    whether it failed or not, every variable has the value it had or a
    value a line assigned to it, non-empty and without "#" or NUL, under a
    name that is non-empty and without "#", "=" or NUL.  So [Load] never
    unsets a variable and never leaves one empty that was not. *)
Theorem Load_effect (w : os.World) (k : string) :
  (os.LookupEnv (Load w).2 k = os.LookupEnv w k
   \/ exists v, os.LookupEnv (Load w).2 k = Some v /\ cleanPair k v)
  /\ (is_Some (os.LookupEnv w k) -> is_Some (os.LookupEnv (Load w).2 k))
  /\ (os.LookupEnv (Load w).2 k = Some "" -> os.LookupEnv w k = Some "").
Proof.
  assert (os.LookupEnv (Load w).2 k = os.LookupEnv w k
          \/ exists v, os.LookupEnv (Load w).2 k = Some v /\ cleanPair k v) as H.
  { destruct (Load_uniform w) as (o & kvs & HF & Hrun).
    destruct (Hrun w eq_refl eq_refl) as (_ & He & _).
    unfold os.LookupEnv. rewrite He.
    destruct (insertAll_lookup kvs k) as [Hsame | (v & Hin & Hset)].
    - left. by rewrite Hsame.
    - right. exists v. rewrite Forall_forall in HF. pose proof (HF _ Hin) as Hc.
      split; [|exact Hc]. destruct Hc as (Hk & _).
      by rewrite (eqb_nonempty k Hk), Hset. }
  split_and!; [exact H | |].
  - destruct H as [-> | (v & -> & _)]; [done | by eexists].
  - destruct H as [-> | (v & -> & Hc)]; [done|].
    intros [= ->]. by destruct Hc as (_ & Hv & _).
Qed.

(** X9. The number in the error of a file is the index of the line the
    loop stopped at, counted from 0 over all lines the scanner yields,
    comments and blank lines too; the lines before it were processed, and
    the host is as they left it. *)
Theorem process_error_line (filename : string) (lines : list string)
    (w w' : os.World) (err : error) :
  processLines filename (-1) lines w = (Some err, w') ->
  exists (i : nat) msg,
    err = Errorf msg /\ (i < length lines)%nat
    /\ Contains msg (filename ++ ":" ++ strconv.Itoa (Z.of_nat i)) = true
    /\ processLines filename (-1) (take i lines) w = (None, w').
Proof.
  intros Hrun. destruct (processLines_uniform filename (-1) lines)
    as (o & kvs & _ & Hall & Herr).
  rewrite Hall in Hrun. injection Hrun as -> <-.
  destruct (Herr err eq_refl) as (i & msg & -> & Hi & Hm & Hpre).
  exists i, msg. split_and!; [done | done | | by apply Hpre].
  by replace (-1 + 1 + Z.of_nat i) with (Z.of_nat i) in Hm by lia.
Qed.

Lemma process_error_line_witness :
  exists (i : nat) msg,
    Errorf "unable to parse line .env:2" = Errorf msg /\ (i < 4)%nat
    /\ Contains msg (".env:" ++ strconv.Itoa (Z.of_nat i)) = true
    /\ processLines ".env" (-1) (take i ["# settings"; "DB_MAX=8"; "BADLINE"; "DB_MIN=9"])
         bareHost
       = (None, hostWith [("DB_MAX", "8")]).
Proof.
  exact (process_error_line ".env" ["# settings"; "DB_MAX=8"; "BADLINE"; "DB_MIN=9"]
           bareHost (hostWith [("DB_MAX", "8")])
           (Errorf "unable to parse line .env:2") eq_refl).
Defined.

(** X10. Loading twice is loading once: when the files leave HOME as it
    was, a second [Load] returns what the first returned and leaves the
    environment as the first left it. *)
Theorem Load_twice (w : os.World) :
  os.Getenv (Load w).2 "HOME" = os.Getenv w "HOME" ->
  (Load (Load w).2).1 = (Load w).1
  /\ os.environ (Load (Load w).2).2 = os.environ (Load w).2.
Proof.
  intros Hhome. destruct (Load_uniform w) as (o & kvs & _ & Hrun).
  destruct (Hrun w eq_refl eq_refl) as (Ho & He & Hf).
  destruct (Hrun (Load w).2 Hf Hhome) as (Ho2 & He2 & _).
  split; [congruence|]. by rewrite He2, He, insertAll_twice.
Qed.

Lemma Load_twice_witness :
  (Load (Load devHost).2).1 = (Load devHost).1
  /\ os.environ (Load (Load devHost).2).2 = os.environ (Load devHost).2.
Proof. exact (Load_twice devHost eq_refl). Defined.

(** X11. Whether [Load] fails, and with which error, is decided by the
    files and by HOME alone: two hosts with the same files and the same
    HOME get the same result, whatever other variables they hold. *)
Theorem Load_outcome_by_files (w1 w2 : os.World) :
  os.files w2 = os.files w1 ->
  os.Getenv w2 "HOME" = os.Getenv w1 "HOME" ->
  (Load w2).1 = (Load w1).1.
Proof.
  intros Hf Hh. destruct (Load_uniform w1) as (o & kvs & _ & Hrun).
  destruct (Hrun w1 eq_refl eq_refl) as (-> & _).
  by destruct (Hrun w2 Hf Hh) as (-> & _).
Qed.

Lemma Load_outcome_by_files_witness :
  (Load devHostOther).1 = (Load devHost).1.
Proof. exact (Load_outcome_by_files devHost devHostOther eq_refl eq_refl). Defined.

Section MoreLoaderFacts.

Lemma processLines_app filename lineNo lines1 lines2 w :
  processLines filename lineNo (lines1 ++ lines2)%list w
  = match processLines filename lineNo lines1 w with
    | (Some err, w1) => (Some err, w1)
    | (None, w1) =>
        processLines filename (lineNo + Z.of_nat (length lines1)) lines2 w1
    end.
Proof.
  revert lineNo w. induction lines1 as [|line lines1 IH]; intros lineNo w.
  - simpl. by rewrite Z.add_0_r.
  - simpl. destruct (processLine filename (lineNo + 1) line w) as [[e|] w1]; [done|].
    rewrite IH. replace (lineNo + 1 + Z.of_nat (length lines1))
      with (lineNo + Z.pos (Pos.of_succ_nat (length lines1))) by lia. done.
Qed.

(** The assignment a well-formed line makes, on every host. *)
Lemma processLine_assigns filename lineNo content rest k v w :
  mem_byte "#" content = false ->
  rest = "" \/ (exists r, rest = String "#" r) ->
  content = k ++ String "=" v -> mem_byte "=" k = false ->
  strings.TrimSpace k <> "" -> strings.TrimSpace v <> "" ->
  mem_byte "000" k = false -> mem_byte "000" v = false ->
  processLine filename lineNo (content ++ rest) w
  = (None, assign w (strings.TrimSpace k, strings.TrimSpace v)).
Proof.
  intros Hc Hrest -> Hk Hk1 Hv1 Hk0 Hv0.
  rewrite (processLine_comment _ _ _ _ _ Hc Hrest), (processLine_plain _ _ _ _ Hc).
  assert (strings.TrimSpace (k ++ String "=" v) <> "") as Hne.
  { intros Hb. apply TrimSpace_blank_no_equals in Hb.
    rewrite mem_byte_app in Hb. simpl in Hb. by rewrite orb_true_r in Hb. }
  rewrite (eqb_nonempty _ Hne), (SplitN_2_cut k v "=" Hk). cbv zeta.
  rewrite (eqb_nonempty _ Hk1), (eqb_nonempty _ Hv1). simpl orb. cbv iota.
  rewrite Setenv_ok; [done | done | | |].
  - by rewrite (TrimSpace_mem "=" k equals_no_space).
  - by rewrite (TrimSpace_mem "000" k NUL_no_space).
  - by rewrite (TrimSpace_mem "000" v NUL_no_space).
Qed.

Lemma loadUser_ok_files w wu : loadUser w = (None, wu) -> os.files wu = os.files w.
Proof. intros H. pose proof (proj1 (loadUser_files w)) as Hf. by rewrite H in Hf. Qed.

End MoreLoaderFacts.

(** X12. The last line of the local .env file has the last word: when
    [Load] returns no error and that line assigns a value to a name, the
    variable holds that value afterwards, whatever the environment, the
    home file and the earlier lines gave it. *)
Theorem local_last_line_wins (w w' : os.World) (data : string)
    (before : list string) (line content rest k v : string) :
  Load w = (None, w') ->
  os.files w !! ".env" = Some (os.File true data) ->
  bufio.ScanLines data = (before ++ [line])%list ->
  line = content ++ rest ->
  mem_byte "#" content = false ->
  rest = "" \/ (exists r, rest = String "#" r) ->
  content = k ++ String "=" v -> mem_byte "=" k = false ->
  strings.TrimSpace k <> "" -> strings.TrimSpace v <> "" ->
  mem_byte "000" k = false -> mem_byte "000" v = false ->
  os.LookupEnv w' (strings.TrimSpace k) = Some (strings.TrimSpace v).
Proof.
  intros HL Hfile Hscan -> Hc Hrest Hcut Hk Hk1 Hv1 Hk0 Hv0.
  unfold Load in HL. destruct (loadUser w) as [[e|] wu] eqn:Hu; [done|].
  pose proof (loadUser_ok_files w wu Hu) as Hf.
  unfold loadLocal, exists_, os.Stat, process, os.Open in HL.
  rewrite Hf, Hfile, Hscan, processLines_app in HL. simpl negb in HL. cbv iota in HL.
  destruct (processLines ".env" (-1) before _) as [[e|] w1]; [done|].
  simpl processLines in HL.
  rewrite (processLine_assigns _ _ _ _ _ _ _ Hc Hrest Hcut Hk Hk1 Hv1 Hk0 Hv0) in HL.
  injection HL as <-. unfold os.LookupEnv, assign. simpl.
  rewrite (eqb_nonempty _ Hk1). apply lookup_insert_eq.
Qed.

Lemma local_last_line_wins_witness :
  os.LookupEnv (Load (twoFiles userData ("DB_MAX=8" ++ LF ++ " DB_MIN = 3 # low"))).2
    "DB_MIN"
  = Some "3".
Proof.
  apply (local_last_line_wins
           (twoFiles userData ("DB_MAX=8" ++ LF ++ " DB_MIN = 3 # low"))
           (Load (twoFiles userData ("DB_MAX=8" ++ LF ++ " DB_MIN = 3 # low"))).2
           ("DB_MAX=8" ++ LF ++ " DB_MIN = 3 # low")
           ["DB_MAX=8"] " DB_MIN = 3 # low" " DB_MIN = 3 " "# low" " DB_MIN " " 3 ");
    try reflexivity; try discriminate.
  right. by eexists.
Defined.

(** X13. A directory called .env is passed over like a file that is not
    there.  A .env file that cannot be opened makes [Load] fail with the
    error for an unparsable file, and the environment stays as it was. *)
Theorem Load_directory_and_unreadable (w wu : os.World) :
  loadUser w = (None, wu) ->
  (os.files w !! ".env" = Some os.Dir -> Load w = (None, wu))
  /\ (forall data,
         os.files w !! ".env" = Some (os.File false data) ->
         (Load w).1 = Some ErrBadLocalFile
         /\ os.environ (Load w).2 = os.environ wu).
Proof.
  intros Hu. pose proof (loadUser_ok_files w wu Hu) as Hf. unfold Load. rewrite Hu.
  unfold loadLocal, exists_, os.Stat, process, os.Open. rewrite Hf. split.
  - by intros ->.
  - by intros data ->.
Qed.

Lemma Load_directory_and_unreadable_witness :
  Load (os.mkWorld ∅ {[ ".env" := os.Dir ]} []) = (None, os.mkWorld ∅ {[ ".env" := os.Dir ]} [])
  /\ (Load (os.mkWorld ∅ {[ ".env" := os.File false "DB_MAX=8" ]} [])).1
     = Some ErrBadLocalFile.
Proof.
  split.
  - exact (proj1 (Load_directory_and_unreadable
                    (os.mkWorld ∅ {[ ".env" := os.Dir ]} [])
                    (os.mkWorld ∅ {[ ".env" := os.Dir ]} []) eq_refl) eq_refl).
  - exact (proj1 (proj2 (Load_directory_and_unreadable
                           (os.mkWorld ∅ {[ ".env" := os.File false "DB_MAX=8" ]} [])
                           (os.mkWorld ∅ {[ ".env" := os.File false "DB_MAX=8" ]} [])
                           eq_refl) "DB_MAX=8" eq_refl)).
Defined.

(** ** Lines the scanner gives up on *)

Section ScannerFacts.

Lemma rev_string_length acc s :
  String.length (rev_string acc s) = (String.length acc + String.length s)%nat.
Proof.
  revert acc. induction s as [|c s IH]; intros acc; simpl; [lia|].
  rewrite IH. simpl. lia.
Qed.

Lemma len_reverse s : len (reverse s) = len s.
Proof. unfold len, reverse. by rewrite rev_string_length. Qed.

(** After a line feed the scanner starts afresh. *)
Lemma rawLines_after_LF cur p x :
  bufio.rawLines cur (p ++ LF ++ x)
  = (bufio.rawLines cur (p ++ LF) ++ bufio.rawLines "" x)%list.
Proof.
  revert cur. induction p as [|c p IH]; intros cur.
  - rewrite !app_nil_l. unfold LF. rewrite app_String, app_nil_l. simpl.
    by destruct cur.
  - rewrite !app_String. simpl. destruct (Ascii.eqb c "010"); by rewrite IH.
Qed.

(** The line that begins with the bytes in [cur] is at least that long. *)
Lemma rawLines_head cur data :
  cur <> "" ->
  exists l tl, bufio.rawLines cur data = l :: tl /\ len cur <= len l.
Proof.
  revert cur. induction data as [|c data IH]; intros cur Hcur.
  - destruct cur as [|c0 cur]; [done|]. simpl. eexists _, _. split; [done|].
    by rewrite len_reverse.
  - simpl. destruct (Ascii.eqb c "010").
    + eexists _, _. split; [done|]. by rewrite len_reverse.
    + destruct (IH (String c cur)) as (l & tl & -> & Hl); [done|].
      exists l, tl. split; [done|]. rewrite len_String in Hl. lia.
Qed.

Lemma rawLines_long cur long rest :
  mem_byte "010" long = false -> long <> "" ->
  exists l tl,
    bufio.rawLines cur (long ++ rest) = l :: tl /\ len cur + len long <= len l.
Proof.
  revert cur. induction long as [|c long IH]; intros cur Hno Hne; [done|].
  cbn [mem_byte] in Hno. apply orb_false_elim in Hno as [Hc Hno].
  rewrite app_String. cbn [bufio.rawLines]. rewrite (eqb_byte_sym c "010"), Hc.
  destruct long as [|c' long'].
  - rewrite app_nil_l. destruct (rawLines_head (String c cur) rest) as (l & tl & -> & Hl);
      [done|].
    exists l, tl. split; [done|]. rewrite !len_String in *. unfold len at 2. simpl. lia.
  - destruct (IH (String c cur) Hno) as (l & tl & -> & Hl); [done|].
    exists l, tl. split; [done|]. rewrite !len_String in *. lia.
Qed.

Lemma fitting_stop ls l tl :
  bufio.MaxScanTokenSize <= len l ->
  bufio.fitting (ls ++ l :: tl) = bufio.fitting ls.
Proof.
  intros Hl. induction ls as [|x ls IH]; simpl.
  - by destruct (Z.leb_spec bufio.MaxScanTokenSize (len l)); [|lia].
  - destruct (bufio.MaxScanTokenSize <=? len x); [done | by rewrite IH].
Qed.

(** The scanner yields the lines before a line of 64 KiB or more, and
    nothing from that line on. *)
Lemma ScanLines_overlong pre long rest :
  pre = "" \/ (exists p, pre = p ++ LF) ->
  mem_byte "010" long = false ->
  bufio.MaxScanTokenSize <= len long ->
  bufio.ScanLines (pre ++ long ++ rest) = bufio.ScanLines pre.
Proof.
  intros Hpre Hno Hlong.
  assert (long <> "") as Hne by (intros ->; by vm_compute in Hlong).
  unfold bufio.ScanLines. f_equal.
  destruct Hpre as [-> | (p & ->)].
  - rewrite app_nil_l.
    destruct (rawLines_long "" long rest Hno Hne) as (l & tl & -> & Hl).
    apply (fitting_stop [] l tl). unfold len at 1 in Hl. simpl in Hl. lia.
  - rewrite append_assoc, rawLines_after_LF.
    destruct (rawLines_long "" long rest Hno Hne) as (l & tl & -> & Hl).
    apply fitting_stop. unfold len at 1 in Hl. simpl in Hl. lia.
Qed.

End ScannerFacts.

(** X14. A line of 64 KiB or more ends the loading of its file without a
    word: [process] treats the file as if it ended before that line,
    assigns what the lines before it assign, and reports no error for the
    line or for anything after it (the scanner's error is never read). *)
Theorem overlong_line_ends_file (filename : string) (w : os.World)
    (pre long rest : string) :
  os.files w !! filename = Some (os.File true (pre ++ long ++ rest)) ->
  pre = "" \/ (exists p, pre = p ++ LF) ->
  mem_byte "010" long = false ->
  bufio.MaxScanTokenSize <= len long ->
  process filename w
  = processLines filename (-1) (bufio.ScanLines pre) (os.Open filename w).2.
Proof.
  intros Hfile Hpre Hno Hlong. unfold process, os.Open. rewrite Hfile.
  by rewrite (ScanLines_overlong pre long rest Hpre Hno Hlong).
Qed.

Lemma overlong_line_ends_file_witness :
  process ".env" longHost
  = processLines ".env" (-1) ["DB_MAX=8"] (os.Open ".env" longHost).2.
Proof.
  apply (overlong_line_ends_file ".env" longHost ("DB_MAX=8" ++ LF) longLine
           (LF ++ "DB_MIN=9" ++ LF)).
  - reflexivity.
  - right. by exists "DB_MAX=8".
  - vm_compute. reflexivity.
  - vm_compute. discriminate.
Defined.

(** ** The table [Help] writes *)

Section TableFacts.

Variable formatFloat : Z -> string.

Lemma take_bytes_length n s :
  (n <= String.length s)%nat -> String.length (take_bytes n s) = n.
Proof.
  revert s. induction n as [|n IH]; intros s Hn; [done|].
  destruct s as [|c s]; simpl in *; [lia|]. rewrite IH; lia.
Qed.

Lemma take_bytes_prefix n s : strings.HasPrefix s (take_bytes n s) = true.
Proof.
  revert s. induction n as [|n IH]; intros s; [done|].
  destruct s as [|c s]; [done|]. simpl. by rewrite Ascii.eqb_refl, IH.
Qed.

Lemma repeat_nat_length n : String.length (strings.repeat_nat " " n) = n.
Proof.
  induction n as [|n IH]; [done|].
  change (strings.repeat_nat " " (S n)) with (" " ++ strings.repeat_nat " " n).
  rewrite length_append, IH. done.
Qed.

Lemma repeat_nat_blank n c : mem_byte c (strings.repeat_nat " " n) = true -> c = " "%char.
Proof.
  induction n as [|n IH]; [done|].
  change (strings.repeat_nat " " (S n)) with (" " ++ strings.repeat_nat " " n).
  rewrite mem_byte_app. cbn [mem_byte]. rewrite orb_false_r.
  intros [H | H]%orb_prop; [by apply Ascii.eqb_eq in H | auto].
Qed.

(** A padded cell has the width asked for. *)
Lemma pad_len val width cell : pad val width = Returns cell -> len cell = width.
Proof.
  unfold pad, slice, strings.Repeat. pose proof (len_nonneg val).
  destruct (Z.ltb_spec width (len val)).
  - destruct (Z.leb_spec 0 (width - 3)); simpl; [|done].
    destruct (Z.leb_spec (width - 3) (len val)); [|lia]. simpl.
    intros [= <-]. rewrite len_app. unfold len at 1.
    rewrite Z.sub_0_r, take_bytes_length; [unfold len; simpl; lia|].
    unfold len in *. lia.
  - destruct (Z.ltb_spec (width - len val) 0); [lia|].
    intros [= <-]. rewrite len_app. unfold len at 2.
    rewrite repeat_nat_length. lia.
Qed.

Lemma printRow_cells registered width descWidth defvalWidth key out :
  printRow formatFloat registered width descWidth defvalWidth key = (out, Returns tt) ->
  exists c1 c2 c3 c4,
    out = rowOf c1 c2 c3 c4
    /\ len c1 = width /\ len c2 = 12 /\ len c3 = descWidth /\ len c4 = defvalWidth.
Proof.
  unfold printRow.
  destruct (pad key width) as [c1|] eqn:E1; [|done].
  destruct (pad (default "" _) 12) as [c2|] eqn:E2; [|done].
  destruct (pad (Description _) descWidth) as [c3|] eqn:E3; [|done].
  destruct (pad (Sprintf_v _ _) defvalWidth) as [c4|] eqn:E4; [|done].
  intros [= <-]. exists c1, c2, c3, c4.
  split_and!; [done | by eapply pad_len ..].
Qed.

Lemma rowOf_len c1 c2 c3 c4 :
  len (textOf (rowOf c1 c2 c3 c4)) = len c1 + len c2 + len c3 + len c4 + 6 + 1.
Proof.
  unfold textOf, rowOf. simpl. rewrite !len_app. unfold LF.
  change (len "  ") with 2. change (len "") with 0. change (len (String "010" "")) with 1.
  lia.
Qed.

End TableFacts.

(** X15. Whenever [pad] returns, the cell has exactly the width asked for,
    in bytes: a text that fits is followed by blanks only, and a longer one
    is cut to its first [width - 3] bytes and three dots. *)
Theorem pad_cell (val : string) (width : Z) (cell : string) :
  pad val width = Returns cell ->
  len cell = width
  /\ (len val <= width ->
      exists blanks,
        cell = val ++ blanks /\ forall c, mem_byte c blanks = true -> c = " "%char)
  /\ (width < len val ->
      exists front,
        cell = front ++ "..." /\ strings.HasPrefix val front = true
        /\ len front = width - 3).
Proof.
  intros Hpad. split; [by eapply pad_len|].
  pose proof (len_nonneg val). pose proof (pad_len _ _ _ Hpad) as Hlen. split.
  - intros Hfit. rewrite (pad_fits val width Hfit) in Hpad. injection Hpad as <-.
    eexists. split; [done|]. apply repeat_nat_blank.
  - intros Hcut. unfold pad, slice in Hpad.
    destruct (Z.ltb_spec width (len val)); [|lia].
    destruct (Z.leb_spec 0 (width - 3)); simpl in Hpad; [|done].
    destruct (Z.leb_spec (width - 3) (len val)); [|lia]. simpl in Hpad.
    injection Hpad as <-. eexists. split; [done|]. split; [apply take_bytes_prefix|].
    rewrite len_app in Hlen. change (len "...") with 3 in Hlen. lia.
Qed.

Lemma pad_cell_witness :
  len "postgres://postgr..." = 20
  /\ (exists front,
         "postgres://postgr..." = front ++ "..."
         /\ strings.HasPrefix "postgres://postgres@localhost/mydb?sslmode=disable" front
            = true
         /\ len front = 20 - 3).
Proof.
  pose proof (pad_cell "postgres://postgres@localhost/mydb?sslmode=disable" 20
                "postgres://postgr..." eq_refl) as (H1 & _ & H3).
  split; [exact H1 | apply H3; reflexivity].
Defined.

(** X16. Every line [Help] writes has the same number of bytes, and that
    number, the line feed apart, is at most the terminal width (80 where
    the terminal gives none): the table is aligned and fits the terminal. *)
Theorem Help_lines_fit (formatFloat : Z -> string)
    (registered : gmap string descriptor) (termSize : option Z) (out : list string) :
  Help formatFloat registered termSize = (out, Returns tt) ->
  exists rows n,
    out = concat rows /\ length rows = size registered
    /\ n <= default 80 termSize
    /\ Forall (fun row => len (textOf row) = n + 1) rows.
Proof.
  unfold Help, Help_from.
  rewrite (measure_widths formatFloat (map_to_list registered) [] 0 0 0).
  change (([] ++ ?l)%list) with l.
  set (W := foldr Z.max 0 _). set (D := foldr Z.max 0 _). set (V := foldr Z.max 0 _).
  set (term := default 80 termSize).
  destruct (if term <? W + D + V + 18 then _ else _) as [D' V'] eqn:Hw.
  intros (rows & -> & HR)%printRows_rows.
  exists rows, (Z.min term (W + 12 + D' + V' + 6)). split_and!; [done | | lia |].
  - rewrite <- (Forall2_length _ _ _ HR). apply (sorted_keys registered).
  - assert (W + 12 + D' + V' + 6 <= term) as Hfit.
    { destruct (Z.ltb_spec term (W + D + V + 18)); injection Hw as <- <-; lia. }
    rewrite Z.min_r by lia.
    eapply Forall2_Forall_r; [exact HR|]. apply Forall_forall. intros key _ row Hrow.
    destruct (printRow_cells _ _ _ _ _ _ _ Hrow) as (c1 & c2 & c3 & c4 & -> & ? & ? & ? & ?).
    rewrite rowOf_len. lia.
Qed.

Lemma Help_lines_fit_witness :
  exists rows n,
    (Help noFloats readmeRegistry (Some 60)).1 = concat rows
    /\ length rows = size readmeRegistry
    /\ n <= 60
    /\ Forall (fun row => len (textOf row) = n + 1) rows.
Proof. exact (Help_lines_fit noFloats readmeRegistry (Some 60) _ eq_refl). Defined.

(** X17. [Help] returns when the longest name, description and default fit
    the terminal with the 18 bytes between them, and also when they do not
    as long as 3 bytes or more are left for the descriptions.  It has then
    written one line for every registered name and no other, the names in
    ascending order of their bytes, each line beginning with its name. *)
Theorem Help_table (formatFloat : Z -> string) (registered : gmap string descriptor)
    (termSize : option Z) :
  let W := widthOf (fun e => len e.1) registered in
  let D := widthOf (fun e => len (Description e.2)) registered in
  let V := widthOf (fun e => len (Sprintf_v formatFloat (DefaultValue e.2))) registered in
  (default 80 termSize < W + D + V + 18 ->
   3 <= default 80 termSize - W - Z.min V 20 - 18) ->
  exists keys rows,
    Help formatFloat registered termSize = (concat rows, Returns tt)
    /\ Sorted String.le keys /\ NoDup keys
    /\ (forall key, key ∈ keys <-> is_Some (registered !! key))
    /\ Forall2 (fun key row =>
                  exists blanks c2 c3 c4, row = rowOf (key ++ blanks) c2 c3 c4)
         keys rows.
Proof.
  intros W D V Hwide.
  destruct (Help_returns formatFloat registered termSize
              (map_to_list registered).*1 W D V) as (rows0 & Hret & _).
  { by rewrite measure_widths. }
  { exact Hwide. }
  destruct (Help_rows formatFloat registered termSize _ Hret)
    as (keys & rows & HS & HN & Hin & Hcat & HF).
  exists keys, rows. rewrite Hret, Hcat. done.
Qed.

Lemma Help_table_witness :
  exists keys rows,
    Help noFloats readmeRegistry (Some 60) = (concat rows, Returns tt)
    /\ Sorted String.le keys /\ NoDup keys
    /\ (forall key, key ∈ keys <-> is_Some (readmeRegistry !! key))
    /\ Forall2 (fun key row =>
                  exists blanks c2 c3 c4, row = rowOf (key ++ blanks) c2 c3 c4)
         keys rows.
Proof.
  apply (Help_table noFloats readmeRegistry (Some 60)).
  vm_compute. intros _ H. discriminate H.
Defined.

Lemma Help_from_any_order_witness :
  Help_from noFloats readmeRegistry (rev (map_to_list readmeRegistry)) (Some 60)
  = Help noFloats readmeRegistry (Some 60).
Proof.
  exact (Help_from_any_order noFloats readmeRegistry
           (rev (map_to_list readmeRegistry)) (Some 60)
           (Permutation_sym (Permutation_rev (map_to_list readmeRegistry)))).
Defined.

(** X19. [pad] panics exactly when the text is longer than the width and
    the width is below 3, with a slice bound below 0; it returns for every
    width of 3 or more and for every text that fits, and never asks
    [strings.Repeat] for a negative count. *)
Theorem pad_panics_iff (val : string) (width : Z) :
  ((exists m, pad val width = Panics m) <-> width < len val /\ width < 3)
  /\ (forall m, pad val width = Panics m -> m = "slice bounds out of range").
Proof.
  split; [split|].
  - intros [m Hm].
    destruct (Z_lt_le_dec width (len val)) as [Hlong|Hfit].
    + destruct (Z_lt_le_dec width 3) as [Hsmall|Hbig]; [done|].
      destruct (pad_returns val width) as [cell Hcell]; [by right|]. congruence.
    + destruct (pad_returns val width) as [cell Hcell]; [by left|]. congruence.
  - intros [Hlong Hsmall]. eexists. by apply pad_panics.
  - intros m Hm.
    destruct (Z_lt_le_dec width (len val)) as [Hlong|Hfit].
    + destruct (Z_lt_le_dec width 3) as [Hsmall|Hbig].
      * rewrite (pad_panics val width Hlong Hsmall) in Hm. congruence.
      * destruct (pad_returns val width) as [cell Hcell]; [by right|]. congruence.
    + destruct (pad_returns val width) as [cell Hcell]; [by left|]. congruence.
Qed.

